(** * Ocean wave synthesis: Gerstner ocean, spectral (Phillips) ocean, grid mesh

    A shallow embedding of the ocean code of the engine:
    - [Ocean.cpp] / [Ocean.hpp]: the Gerstner ocean (wave set, CPU height
      query, per-wave evaluator, grid mesh);
    - [shaders/ocean.vert] and [shaders/ocean_simple.vert]: the two vertex
      shaders that displace the grid on the GPU;
    - [OceanFFT.cpp] / [OceanFFT.hpp]: the spectral ocean (power-of-two
      check, Phillips spectrum, initial spectrum, sampling queries).

    Numbers.  A C++ [float] (and a GLSL [float]) is modelled by a
    mathematical real: every operation is the exact one, a decimal literal
    such as [0.8f] is the decimal it writes, and rounding, overflow, NaN
    and infinities are not modelled.  A C++ [int] is a [Z]; the code never
    relies on wrap-around in the functions embedded here, and counts and
    sizes are taken to fit an [int].  A [reserve] only sets a capacity and
    is left out; the wave count is non-negative wherever a property
    depends on it.  [sin], [cos], [sqrt] and [exp] are the real
    functions.

    Device state.  OpenGL handles (buffers, textures, shader objects) are
    not part of the state; the only thing the host code observes from the
    device is whether the shader files load, which is a parameter. *)

From Stdlib Require Import Reals ZArith Lia Lra.
From stdpp Require Import base list.

Open Scope R_scope.

(** ** Counted loops

    [for (int i = lo; i < hi; i++) body] over a state [S]. *)

Fixpoint for_loop {S : Type} (count : nat) (i : Z) (body : Z -> S -> S) (s : S) : S :=
  match count with
  | O => s
  | Datatypes.S c => for_loop c (i + 1)%Z body (body i s)
  end.

Definition for_range {S : Type} (lo hi : Z) (body : Z -> S -> S) (s : S) : S :=
  for_loop (Z.to_nat (hi - lo)) lo body s.

(** The indices a loop visits, in order. *)
Fixpoint iota (count : nat) (i : Z) : list Z :=
  match count with
  | O => []
  | Datatypes.S c => i :: iota c (i + 1)%Z
  end.

Definition range (lo hi : Z) : list Z := iota (Z.to_nat (hi - lo)) lo.

(** ** The part of GLM the ocean code uses *)

Module glm.

Record vec2 : Type := Vec2 { x2 : R; y2 : R }.
Record vec3 : Type := Vec3 { x3 : R; y3 : R; z3 : R }.

Definition add2 (a b : vec2) : vec2 := Vec2 (x2 a + x2 b) (y2 a + y2 b).
Definition scale2 (a : vec2) (k : R) : vec2 := Vec2 (x2 a * k) (y2 a * k).
Definition div2 (a : vec2) (k : R) : vec2 := Vec2 (x2 a / k) (y2 a / k).
Definition dot2 (a b : vec2) : R := x2 a * x2 b + y2 a * y2 b.
Definition length2 (a : vec2) : R := sqrt (dot2 a a).
(** [glm::normalize(v) = v * inversesqrt(dot(v, v))] *)
Definition normalize2 (a : vec2) : vec2 := scale2 a (1 / sqrt (dot2 a a)).
(** [glm::mix(x, y, a) = x * (1 - a) + y * a] *)
Definition mix2 (a b : vec2) (t : R) : vec2 := add2 (scale2 a (1 - t)) (scale2 b t).

Definition add3 (a b : vec3) : vec3 := Vec3 (x3 a + x3 b) (y3 a + y3 b) (z3 a + z3 b).
Definition scale3 (a : vec3) (k : R) : vec3 := Vec3 (x3 a * k) (y3 a * k) (z3 a * k).
Definition dot3 (a b : vec3) : R := x3 a * x3 b + y3 a * y3 b + z3 a * z3 b.
Definition normalize3 (a : vec3) : vec3 := scale3 a (1 / sqrt (dot3 a a)).
Definition cross (a b : vec3) : vec3 :=
  Vec3 (y3 a * z3 b - y3 b * z3 a)
       (z3 a * x3 b - z3 b * x3 a)
       (x3 a * y3 b - x3 b * y3 a).

End glm.
Import glm.

(** ** [Ocean]: the Gerstner ocean of Ocean.cpp *)

Module Ocean.

Record OceanConfig : Type := {
  resolution : Z;
  size : R;
  windDirection : vec2;
  windSpeed : R;
  waveAmplitude : R;
  waveFrequency : R;
  numWaves : Z;
  deepColor : vec3;
  shallowColor : vec3;
  fresnelStrength : R;
  specularStrength : R;
  roughness : R;
  transparency : R;
  refractionStrength : R
}.

(** The defaults of the struct in Ocean.hpp. *)
Definition default_config : OceanConfig := {|
  resolution := 256;
  size := 1000;
  windDirection := Vec2 1 0.5;
  windSpeed := 25;
  waveAmplitude := 2;
  waveFrequency := 0.02;
  numWaves := 6;
  deepColor := Vec3 0 0.1 0.3;
  shallowColor := Vec3 0.1 0.6 0.8;
  fresnelStrength := 2;
  specularStrength := 100;
  roughness := 0.02;
  transparency := 0.8;
  refractionStrength := 0.1
|}.

Record Wave : Type := {
  direction : vec2;
  amplitude : R;
  frequency : R;
  phase : R;
  steepness : R
}.

(** The fields of the class the host code reads and writes. *)
Record t : Type := {
  vertices : list vec3;
  normals : list vec3;
  texCoords : list vec2;
  indices : list Z;
  config : OceanConfig;
  time : R;
  isInitialized : bool
}.

(** The body of the loop of [GenerateWaveSet] for index [i]. *)
Definition make_wave (cfg : OceanConfig) (i : Z) : Wave :=
  let windDir := normalize2 (windDirection cfg) in
  let baseFreq := waveFrequency cfg in
  let baseAmp := waveAmplitude cfg in
  let angle := IZR i * 0.785398 in
  let dir := Vec2 (cos angle) (sin angle) in
  let wave_direction := mix2 dir windDir 0.7 in
  let wave_frequency := baseFreq * (1 + IZR i * 0.3) in
  let wave_amplitude := baseAmp / (1 + IZR i * 0.5) in
  let wave_phase := IZR i * 1.57079 in
  let wave_steepness :=
    0.8 / (wave_frequency * wave_amplitude * IZR (numWaves cfg)) in
  {| direction := wave_direction;
     amplitude := wave_amplitude;
     frequency := wave_frequency;
     phase := wave_phase;
     steepness := wave_steepness |}.

Definition GenerateWaveSet (cfg : OceanConfig) : list Wave :=
  for_range 0 (numWaves cfg)
    (fun i waves => waves ++ [make_wave cfg i]) [].

(** One iteration of the loop of [SampleWaveHeight]. *)
Definition height_step (pos : vec2) (currentTime : R) (height : R) (wave : Wave) : R :=
  let c := sqrt (9.8 / frequency wave) in
  let d := normalize2 (direction wave) in
  let theta := dot2 d pos * frequency wave + currentTime * c + phase wave in
  height + amplitude wave * sin theta.

Definition SampleWaveHeight (o : t) (x z currentTime : R) : R :=
  let currentTime := if Rlt_dec currentTime 0 then time o else currentTime in
  let pos := Vec2 x z in
  let waves := GenerateWaveSet (config o) in
  foldl (height_step pos currentTime) 0 waves.


(** [CalculateGerstnerWave]: the displacement is returned, the tangent
    and the binormal are updated in place (passed by reference). *)
Definition CalculateGerstnerWave (cfg : OceanConfig) (position : vec2) (wave : Wave)
    (currentTime : R) (tangent binormal : vec3) : vec3 * vec3 * vec3 :=
  let c := sqrt (9.8 / frequency wave) in
  let d := normalize2 (direction wave) in
  let f := frequency wave in
  let a := amplitude wave in
  let phi := phase wave in
  let q := steepness wave / (frequency wave * a * IZR (numWaves cfg)) in
  let theta := dot2 d position * f + currentTime * c + phi in
  let sinTheta := sin theta in
  let cosTheta := cos theta in
  let displacement :=
    Vec3 (q * a * x2 d * cosTheta) (a * sinTheta) (q * a * y2 d * cosTheta) in
  let tangent' :=
    Vec3 (x3 tangent + - q * x2 d * x2 d * f * a * sinTheta)
         (y3 tangent + x2 d * f * a * cosTheta)
         (z3 tangent + - q * x2 d * y2 d * f * a * sinTheta) in
  let binormal' :=
    Vec3 (x3 binormal + - q * x2 d * y2 d * f * a * sinTheta)
         (y3 binormal + y2 d * f * a * cosTheta)
         (z3 binormal + - q * y2 d * y2 d * f * a * sinTheta) in
  (displacement, tangent', binormal').

(** [GenerateIndices]: two triangles per grid cell. *)
Definition GenerateIndices (o : t) : t :=
  let res := resolution (config o) in
  let indices0 : list Z := [] in
  let indices1 :=
    for_range 0 res (fun z ind =>
      for_range 0 res (fun x ind =>
        let topLeft := (z * (res + 1) + x)%Z in
        let topRight := (topLeft + 1)%Z in
        let bottomLeft := ((z + 1) * (res + 1) + x)%Z in
        let bottomRight := (bottomLeft + 1)%Z in
        ind ++ [topLeft; bottomLeft; topRight]
            ++ [topRight; bottomLeft; bottomRight]) ind) indices0 in
  {| vertices := vertices o; normals := normals o; texCoords := texCoords o;
     indices := indices1; config := config o; time := time o;
     isInitialized := isInitialized o |}.

(** [GenerateMesh]: the three vertex streams, then the indices. *)
Definition GenerateMesh (o : t) : t :=
  let res := resolution (config o) in
  let halfSize := size (config o) * 0.5 in
  let stepSize := size (config o) / IZR res in
  let streams0 : list vec3 * list vec3 * list vec2 := ([], [], []) in
  let streams1 :=
    for_range 0 (res + 1) (fun z st =>
      for_range 0 (res + 1) (fun x st =>
        let '(vs, ns, ts) := st in
        let worldX := - halfSize + IZR x * stepSize in
        let worldZ := - halfSize + IZR z * stepSize in
        (vs ++ [Vec3 worldX 0 worldZ],
         ns ++ [Vec3 0 1 0],
         ts ++ [Vec2 (IZR x / IZR res) (IZR z / IZR res)])) st) streams0 in
  let '(vs, ns, ts) := streams1 in
  GenerateIndices
    {| vertices := vs; normals := ns; texCoords := ts;
       indices := indices o; config := config o; time := time o;
       isInitialized := isInitialized o |}.

(** [UpdateMeshData] only binds and unbinds a device buffer. *)
Definition UpdateMeshData (o : t) : t := o.

(** [SetConfig] has no result ([void]). *)
Definition SetConfig (o : t) (cfg : OceanConfig) : t :=
  let o1 := {| vertices := vertices o; normals := normals o;
               texCoords := texCoords o; indices := indices o;
               config := cfg; time := time o;
               isInitialized := isInitialized o |} in
  if isInitialized o1 then UpdateMeshData (GenerateMesh o1) else o1.

Definition Update (o : t) (deltaTime : R) : t :=
  if negb (isInitialized o) then o
  else {| vertices := vertices o; normals := normals o;
          texCoords := texCoords o; indices := indices o;
          config := config o; time := time o + deltaTime;
          isInitialized := isInitialized o |}.

End Ocean.

(** ** [shaders/ocean.vert]: the Gerstner vertex shader

    The model matrix is the identity ([Ocean::Render] sets it so): the
    world position of a vertex is its attribute [aPos]. *)

Module ocean_vert.

Record Uniforms : Type := {
  u_time : R;
  u_windDirection : vec2;
  u_windSpeed : R;
  u_waveAmplitude : R;
  u_waveFrequency : R;
  u_numWaves : Z
}.

Record Wave : Type := {
  direction : vec2;
  amplitude : R;
  frequency : R;
  phase : R;
  steepness : R
}.

(** [GerstnerWave]: [tangent] and [binormal] are [inout]. *)
Definition GerstnerWave (u : Uniforms) (pos : vec2) (wave : Wave) (time : R)
    (tangent binormal : vec3) : vec3 * vec3 * vec3 :=
  let c := sqrt (9.8 / frequency wave) in
  let d := normalize2 (direction wave) in
  let f := frequency wave in
  let a := amplitude wave in
  let phi := phase wave in
  let q := steepness wave / (frequency wave * a * IZR (u_numWaves u)) in
  let theta := dot2 d pos * f + time * c + phi in
  let sinTheta := sin theta in
  let cosTheta := cos theta in
  let displacement :=
    Vec3 (q * a * x2 d * cosTheta) (a * sinTheta) (q * a * y2 d * cosTheta) in
  let tangent' :=
    Vec3 (x3 tangent + - q * x2 d * x2 d * f * a * sinTheta)
         (y3 tangent + x2 d * f * a * cosTheta)
         (z3 tangent + - q * x2 d * y2 d * f * a * sinTheta) in
  let binormal' :=
    Vec3 (x3 binormal + - q * x2 d * y2 d * f * a * sinTheta)
         (y3 binormal + y2 d * f * a * cosTheta)
         (z3 binormal + - q * y2 d * y2 d * f * a * sinTheta) in
  (displacement, tangent', binormal').

(** The body of the first loop of [main]: the wave written to [waves[i]]. *)
Definition make_wave (u : Uniforms) (i : Z) : Wave :=
  let windDir := normalize2 (u_windDirection u) in
  let baseFreq := u_waveFrequency u in
  let baseAmp := u_waveAmplitude u in
  let angle := IZR i * 0.785398 in
  let dir := Vec2 (cos angle) (sin angle) in
  let dir := mix2 dir windDir 0.7 in
  let wave_frequency := baseFreq * (1 + IZR i * 0.3) in
  let wave_amplitude := baseAmp / (1 + IZR i * 0.5) in
  {| direction := dir;
     frequency := wave_frequency;
     amplitude := wave_amplitude;
     phase := IZR i * 1.57079;
     steepness := 0.8 / (wave_frequency * wave_amplitude * IZR (u_numWaves u)) |}.

(** What [main] computes before the projection: the total displacement
    and the accumulated tangent and binormal.  The array [waves[8]] is
    the list of the entries written so far (entry [i] is written at
    iteration [i]); both loops run to [min(u_numWaves, 8)]. *)
Definition main_waves (u : Uniforms) : list Wave :=
  for_range 0 (Z.min (u_numWaves u) 8)
    (fun i waves => waves ++ [make_wave u i]) [].

Definition main (u : Uniforms) (aPos : vec3) : vec3 * vec3 * vec3 :=
  let worldPos := aPos in
  let pos2D := Vec2 (x3 worldPos) (z3 worldPos) in
  let waves := main_waves u in
  for_range 0 (Z.min (u_numWaves u) 8)
    (fun i st =>
       let '(totalDisplacement, tangent, binormal) := st in
       match waves !! Z.to_nat i with
       | Some w =>
           let '(disp, tangent', binormal') :=
             GerstnerWave u pos2D w (u_time u) tangent binormal in
           (add3 totalDisplacement disp, tangent', binormal')
       | None => st
       end)
    (Vec3 0 0 0, Vec3 1 0 0, Vec3 0 0 1).

Definition main_worldPos (u : Uniforms) (aPos : vec3) : vec3 :=
  add3 aPos (fst (fst (main u aPos))).

Definition main_Normal (u : Uniforms) (aPos : vec3) : vec3 :=
  let '(_, tangent, binormal) := main u aPos in
  normalize3 (cross binormal tangent).

End ocean_vert.

(** ** [shaders/ocean_simple.vert]: the shader [Ocean::Initialize] loads *)

Module ocean_simple_vert.

Record Uniforms : Type := {
  u_time : R;
  u_waveAmplitude : R
}.

(** [worldPos] after the two [+=] on its [y] component. *)
Definition main_worldPos (u : Uniforms) (aPos : vec3) : vec3 :=
  let worldPos := aPos in
  let y1 := y3 worldPos + sin (x3 worldPos * 0.1 + u_time u) * u_waveAmplitude u * 0.1 in
  let y2 := y1 + cos (z3 worldPos * 0.15 + u_time u * 0.8) * u_waveAmplitude u * 0.05 in
  Vec3 (x3 worldPos) y2 (z3 worldPos).

(** The displacement the shader applies to a vertex. *)
Definition main_displacement (u : Uniforms) (aPos : vec3) : vec3 :=
  add3 (main_worldPos u aPos) (scale3 aPos (-1)).

End ocean_simple_vert.

(** ** [OceanFFT]: the spectral ocean of OceanFFT.cpp *)

Module OceanFFT.

(** [const float PI = 3.14159265359f] (the constant of the file, which
    stands for pi in the formulas) and [GRAVITY]. *)
Definition PI : R := 3.14159265359.
Definition GRAVITY : R := 9.81.

Record WaveParameters : Type := {
  A : R;
  windSpeed : vec2;
  windDirection : vec2;
  lambda : R;
  L : R;
  damping : R;
  gravity : R
}.

Definition default_params : WaveParameters := {|
  A := 0.0001;
  windSpeed := Vec2 32 32;
  windDirection := Vec2 1 1;
  lambda := -1;
  L := 200;
  damping := 0.001;
  gravity := 9.81
|}.

Record OceanConfig : Type := {
  N : Z;
  oceanSize : R;
  timeScale : R;
  enableChoppiness : bool;
  enableFoam : bool;
  foamThreshold : R
}.

Definition default_config : OceanConfig := {|
  N := 512;
  oceanSize := 1000;
  timeScale := 1;
  enableChoppiness := true;
  enableFoam := true;
  foamThreshold := 0.8
|}.

Record Complex : Type := mkComplex { real : R; imag : R }.

Definition Complex_add (a b : Complex) : Complex :=
  mkComplex (real a + real b) (imag a + imag b).
Definition Complex_mul (a b : Complex) : Complex :=
  mkComplex (real a * real b - imag a * imag b)
            (real a * imag b + imag a * real b).
Definition conjugate (a : Complex) : Complex := mkComplex (real a) (- imag a).
Definition magnitude (a : Complex) : R := sqrt (real a * real a + imag a * imag a).
(** The converting constructor [Complex(float r, float i = 0.0f)]. *)
Definition Complex_of_float (r : R) : Complex := mkComplex r 0.

(** The fields of the class the host code reads and writes.  [rng] is
    the number of values drawn so far from the generator, which the
    constructor seeds with the constant 42. *)
Record t : Type := {
  waveParams : WaveParameters;
  config : OceanConfig;
  initialSpectrum : list Complex;
  vertices : list R;
  indices : list Z;
  time : R;
  isInitialized : bool;
  rng : nat
}.

Definition set_config (o : t) (cfg : OceanConfig) : t :=
  {| waveParams := waveParams o; config := cfg;
     initialSpectrum := initialSpectrum o; vertices := vertices o;
     indices := indices o; time := time o;
     isInitialized := isInitialized o; rng := rng o |}.

Definition set_waveParams (o : t) (p : WaveParameters) : t :=
  {| waveParams := p; config := config o;
     initialSpectrum := initialSpectrum o; vertices := vertices o;
     indices := indices o; time := time o;
     isInitialized := isInitialized o; rng := rng o |}.

Definition set_isInitialized (o : t) (b : bool) : t :=
  {| waveParams := waveParams o; config := config o;
     initialSpectrum := initialSpectrum o; vertices := vertices o;
     indices := indices o; time := time o;
     isInitialized := b; rng := rng o |}.

Definition set_geometry (o : t) (vs : list R) (ind : list Z) : t :=
  {| waveParams := waveParams o; config := config o;
     initialSpectrum := initialSpectrum o; vertices := vs;
     indices := ind; time := time o;
     isInitialized := isInitialized o; rng := rng o |}.

Definition set_spectrum (o : t) (sp : list Complex) (r : nat) : t :=
  {| waveParams := waveParams o; config := config o;
     initialSpectrum := sp; vertices := vertices o;
     indices := indices o; time := time o;
     isInitialized := isInitialized o; rng := r |}.

Definition set_time (o : t) (tm : R) : t :=
  {| waveParams := waveParams o; config := config o;
     initialSpectrum := initialSpectrum o; vertices := vertices o;
     indices := indices o; time := tm;
     isInitialized := isInitialized o; rng := rng o |}.

(** The object the constructor builds. *)
Definition new : t :=
  {| waveParams := default_params; config := default_config;
     initialSpectrum := []; vertices := []; indices := [];
     time := 0; isInitialized := false; rng := 0 |}.

(** [value > 0 && (value & (value - 1)) == 0] *)
Definition IsPowerOfTwo (value : Z) : bool :=
  (0 <? value)%Z && (Z.land value (value - 1) =? 0)%Z.

Definition GetWaveVector (cfg : OceanConfig) (n m : Z) : vec2 :=
  let kx := (2 * PI * IZR (n - N cfg ÷ 2)) / oceanSize cfg in
  let kz := (2 * PI * IZR (m - N cfg ÷ 2)) / oceanSize cfg in
  Vec2 kx kz.

Definition PhillipsSpectrum (wp : WaveParameters) (k : vec2) : R :=
  let kLength := length2 k in
  if Rlt_dec kLength 0.000001 then 0
  else
    let kLength2 := kLength * kLength in
    let kLength4 := kLength2 * kLength2 in
    let kNormalized := div2 k kLength in
    let windNormalized := normalize2 (windDirection wp) in
    let kDotWind := dot2 kNormalized windNormalized in
    let kDotWind2 := kDotWind * kDotWind in
    let L := (length2 (windSpeed wp) * length2 (windSpeed wp)) / gravity wp in
    let damping := exp (- kLength2 * damping wp * damping wp) in
    A wp * exp (- 1 / (kLength2 * L * L)) / kLength4 * kDotWind2 * damping.

Definition DispersionRelation (wp : WaveParameters) (k : vec2) : R :=
  sqrt (gravity wp * length2 k).

(** The device only reports whether the two shader files of
    [InitializeShaders] load; [gaussianDist] is the sequence of values
    the seeded generator hands out through the normal distribution. *)
Section Host.

Variable gaussianDist : nat -> R.
Variable shaders_load : bool.

(** [Complex(gaussianDist(rng), gaussianDist(rng))]: two draws. *)
Definition GetGaussianRandom (r : nat) : Complex * nat :=
  (mkComplex (gaussianDist r) (gaussianDist (Datatypes.S r)),
   Datatypes.S (Datatypes.S r)).

(** The body of the inner loop of [GenerateInitialSpectrum]. *)
Definition spectrum_cell (wp : WaveParameters) (cfg : OceanConfig) (m n : Z)
    (st : list Complex * nat) : list Complex * nat :=
  let '(spectrum, r) := st in
  let k := GetWaveVector cfg n m in
  if Rlt_dec (length2 k) 0.000001 then
    (<[ Z.to_nat (m * N cfg + n) := mkComplex 0 0 ]> spectrum, r)
  else
    let phillips := PhillipsSpectrum wp k in
    let '(gaussianRand, r') := GetGaussianRandom r in
    (<[ Z.to_nat (m * N cfg + n) :=
          Complex_mul gaussianRand (Complex_of_float (sqrt (phillips * 0.5))) ]>
       spectrum, r').

Definition GenerateInitialSpectrum (o : t) : t :=
  let cfg := config o in
  let spectrum0 :=
    resize (Z.to_nat (N cfg * N cfg)) (mkComplex 0 0) (initialSpectrum o) in
  let '(spectrum1, r1) :=
    for_range 0 (N cfg) (fun m st =>
      for_range 0 (N cfg) (fun n st =>
        spectrum_cell (waveParams o) cfg m n st) st)
      (spectrum0, rng o) in
  set_spectrum o spectrum1 r1.

(** [Cleanup] releases device objects and clears the flag. *)
Definition Cleanup (o : t) : t := set_isInitialized o false.

(** [CreateGeometry]: five floats per vertex, six indices per cell;
    it always returns [true]. *)
Definition CreateGeometry (o : t) : bool * t :=
  let cfg := config o in
  let halfSize := oceanSize cfg * 0.5 in
  let step := oceanSize cfg / IZR (N cfg - 1) in
  let vs :=
    for_range 0 (N cfg) (fun z vs =>
      for_range 0 (N cfg) (fun x vs =>
        let worldX := - halfSize + IZR x * step in
        let worldZ := - halfSize + IZR z * step in
        vs ++ [worldX; 0; worldZ;
               IZR x / IZR (N cfg - 1); IZR z / IZR (N cfg - 1)]) vs) [] in
  let ind :=
    for_range 0 (N cfg - 1) (fun z ind =>
      for_range 0 (N cfg - 1) (fun x ind =>
        let topLeft := (z * N cfg + x)%Z in
        let topRight := (topLeft + 1)%Z in
        let bottomLeft := ((z + 1) * N cfg + x)%Z in
        let bottomRight := (bottomLeft + 1)%Z in
        ind ++ [topLeft; bottomLeft; topRight]
            ++ [topRight; bottomLeft; bottomRight]) ind) [] in
  (true, set_geometry o vs ind).

(** Device-only steps: textures and the framebuffer always succeed,
    the shaders succeed when their files load. *)
Definition CreateTextures (o : t) : bool * t := (true, o).
Definition CreateFramebuffers (o : t) : bool * t := (true, o).
Definition InitializeShaders (o : t) : bool * t := (shaders_load, o).

Definition Initialize (o : t) (cfg : OceanConfig) : bool * t :=
  let o := if isInitialized o then Cleanup o else o in
  let o := set_config o cfg in
  if negb (IsPowerOfTwo (N (config o))) then (false, o)
  else
    let '(ok, o) := CreateGeometry o in
    if negb ok then (false, o) else
    let '(ok, o) := CreateTextures o in
    if negb ok then (false, o) else
    let '(ok, o) := CreateFramebuffers o in
    if negb ok then (false, o) else
    let '(ok, o) := InitializeShaders o in
    if negb ok then (false, o) else
    let o := GenerateInitialSpectrum o in
    let o := set_isInitialized o true in
    (true, o).

Definition SetWaveParameters (o : t) (params : WaveParameters) : t :=
  let o := set_waveParams o params in
  if isInitialized o then GenerateInitialSpectrum o else o.

(** The comparison reads [config] after it has been assigned. *)
Definition SetOceanConfig (o : t) (cfg : OceanConfig) : t :=
  let o := set_config o cfg in
  if isInitialized o then
    if negb (N cfg =? N (config o))%Z then snd (Initialize o cfg) else o
  else o.

(** [UpdateSpectrum] and [ComputeFFT] have empty bodies. *)
Definition Update (o : t) (deltaTime : R) : t :=
  if negb (isInitialized o) then o
  else set_time o (time o + deltaTime * timeScale (config o)).

End Host.

(** One iteration of the loop of [SampleHeight]. *)
Definition height_step (wp : WaveParameters) (x z currentTime : R) (i : Z)
    (waveHeight : R) : R :=
  let freq := 0.01 * IZR (Z.shiftl 1 i) in
  let amp := A wp / IZR (Z.shiftl 1 i) in
  waveHeight + amp * sin (x * freq + currentTime) * cos (z * freq + currentTime * 0.7).

Definition SampleHeight (o : t) (x z currentTime : R) : R :=
  if negb (isInitialized o) then 0
  else
    let currentTime := if Rlt_dec currentTime 0 then time o else currentTime in
    let u := (x / oceanSize (config o) + 0.5) * IZR (N (config o)) in
    let v := (z / oceanSize (config o) + 0.5) * IZR (N (config o)) in
    for_range 0 8 (height_step (waveParams o) x z currentTime) 0.

Definition SampleNormal (o : t) (x z currentTime : R) : vec3 :=
  if negb (isInitialized o) then Vec3 0 1 0
  else
    let epsilon := 0.1 in
    let h0 := SampleHeight o x z currentTime in
    let hx := SampleHeight o (x + epsilon) z currentTime in
    let hz := SampleHeight o x (z + epsilon) currentTime in
    let tangentX := normalize3 (Vec3 epsilon (hx - h0) 0) in
    let tangentZ := normalize3 (Vec3 0 (hz - h0) epsilon) in
    normalize3 (cross tangentZ tangentX).

Definition SampleDisplacement (o : t) (x z currentTime : R) : vec2 :=
  if negb (isInitialized o) || negb (enableChoppiness (config o)) then Vec2 0 0
  else
    let dispX := lambda (waveParams o) * 0.1 * cos (x * 0.01 + currentTime) in
    let dispZ := lambda (waveParams o) * 0.1 * sin (z * 0.01 + currentTime * 0.8) in
    Vec2 dispX dispZ.

End OceanFFT.

(** ** Host and device side by side

    The Gerstner shader needs the uniforms [u_time], [u_windDirection],
    [u_windSpeed], [u_waveAmplitude], [u_waveFrequency] and [u_numWaves];
    [uniforms_of] is the upload that mirrors the host state.  The simple
    shader receives [u_time] and [u_waveAmplitude] from [Ocean::Render]. *)

Module Conformance.

Definition to_gpu_wave (w : Ocean.Wave) : ocean_vert.Wave :=
  {| ocean_vert.direction := Ocean.direction w;
     ocean_vert.amplitude := Ocean.amplitude w;
     ocean_vert.frequency := Ocean.frequency w;
     ocean_vert.phase := Ocean.phase w;
     ocean_vert.steepness := Ocean.steepness w |}.

Definition uniforms_of (o : Ocean.t) : ocean_vert.Uniforms :=
  {| ocean_vert.u_time := Ocean.time o;
     ocean_vert.u_windDirection := Ocean.windDirection (Ocean.config o);
     ocean_vert.u_windSpeed := Ocean.windSpeed (Ocean.config o);
     ocean_vert.u_waveAmplitude := Ocean.waveAmplitude (Ocean.config o);
     ocean_vert.u_waveFrequency := Ocean.waveFrequency (Ocean.config o);
     ocean_vert.u_numWaves := Ocean.numWaves (Ocean.config o) |}.

(** The uniforms [Ocean::Render] sets for the shader it uses. *)
Definition simple_uniforms_of (o : Ocean.t) : ocean_simple_vert.Uniforms :=
  {| ocean_simple_vert.u_time := Ocean.time o;
     ocean_simple_vert.u_waveAmplitude := Ocean.waveAmplitude (Ocean.config o) |}.

(** Agreement of two vectors within an absolute tolerance. *)
Definition within (tol : R) (a b : vec3) : Prop :=
  Rabs (x3 a - x3 b) <= tol /\
  Rabs (y3 a - y3 b) <= tol /\
  Rabs (z3 a - z3 b) <= tol.

(** The configuration of the end-to-end scenario: one wave along x. *)
Definition single_wave_config : Ocean.OceanConfig :=
  {| Ocean.resolution := 256;
     Ocean.size := 1000;
     Ocean.windDirection := Vec2 1 0;
     Ocean.windSpeed := 25;
     Ocean.waveAmplitude := 1;
     Ocean.waveFrequency := 0.02;
     Ocean.numWaves := 1;
     Ocean.deepColor := Vec3 0 0.1 0.3;
     Ocean.shallowColor := Vec3 0.1 0.6 0.8;
     Ocean.fresnelStrength := 2;
     Ocean.specularStrength := 100;
     Ocean.roughness := 0.02;
     Ocean.transparency := 0.8;
     Ocean.refractionStrength := 0.1 |}.

(** A surface holding a configuration, at time zero, before any mesh. *)
Definition ocean_with (cfg : Ocean.OceanConfig) : Ocean.t :=
  {| Ocean.vertices := []; Ocean.normals := []; Ocean.texCoords := [];
     Ocean.indices := []; Ocean.config := cfg; Ocean.time := 0;
     Ocean.isInitialized := false |}.

End Conformance.

(** ** The layout of the grid mesh

    Row [z], column [x] of the grid: where [GenerateMesh] places the
    vertex, which texture coordinate it gets, and the six indices
    [GenerateIndices] emits for the cell whose top-left corner it is. *)

Module GridLayout.

(** The vertex, normal and texture coordinate at row [z], column [x]. *)
Definition grid_position (cfg : Ocean.OceanConfig) (z x : Z) : vec3 :=
  Vec3 (- (Ocean.size cfg * 0.5) + IZR x * (Ocean.size cfg / IZR (Ocean.resolution cfg))) 0
       (- (Ocean.size cfg * 0.5) + IZR z * (Ocean.size cfg / IZR (Ocean.resolution cfg))).

Definition grid_uv (cfg : Ocean.OceanConfig) (z x : Z) : vec2 :=
  Vec2 (IZR x / IZR (Ocean.resolution cfg)) (IZR z / IZR (Ocean.resolution cfg)).

(** The six indices of the cell at row [z], column [x]. *)
Definition cell_indices (cfg : Ocean.OceanConfig) (z x : Z) : list Z :=
  let topLeft := (z * (Ocean.resolution cfg + 1) + x)%Z in
  let topRight := (topLeft + 1)%Z in
  let bottomLeft := ((z + 1) * (Ocean.resolution cfg + 1) + x)%Z in
  let bottomRight := (bottomLeft + 1)%Z in
  [topLeft; bottomLeft; topRight; topRight; bottomLeft; bottomRight].

(** The grid of the determinism test: resolution 4, size 10. *)
Definition example_config : Ocean.OceanConfig :=
  {| Ocean.resolution := 4;
     Ocean.size := 10;
     Ocean.windDirection := Vec2 1 0.5;
     Ocean.windSpeed := 25;
     Ocean.waveAmplitude := 2;
     Ocean.waveFrequency := 0.02;
     Ocean.numWaves := 6;
     Ocean.deepColor := Vec3 0 0.1 0.3;
     Ocean.shallowColor := Vec3 0.1 0.6 0.8;
     Ocean.fresnelStrength := 2;
     Ocean.specularStrength := 100;
     Ocean.roughness := 0.02;
     Ocean.transparency := 0.8;
     Ocean.refractionStrength := 0.1 |}.

(** A surface with the same configuration that already holds data. *)
Definition stale_ocean : Ocean.t :=
  {| Ocean.vertices := [Vec3 1 2 3]; Ocean.normals := [Vec3 0 0 1];
     Ocean.texCoords := [Vec2 1 1]; Ocean.indices := [7%Z; 8%Z; 9%Z];
     Ocean.config := example_config; Ocean.time := 5;
     Ocean.isInitialized := true |}.

End GridLayout.

(** ** Reference definitions for the spectral ocean *)

Module OceanFFTSpec.
Import OceanFFT.

(** The Phillips spectrum as the specification words it: zero at the
    zero wavevector, otherwise
    A * exp(-1 / (|k|^2 L^2)) / |k|^4 * (k^ . wind^)^2 * exp(-|k|^2 d^2)
    with L = |windSpeed|^2 / gravity. *)
Definition PhillipsSpectrum_ref (wp : WaveParameters) (k : vec2) : R :=
  let norm_k := length2 k in
  if Req_dec_T norm_k 0 then 0
  else
    let L := (length2 (windSpeed wp)) ^ 2 / gravity wp in
    let directionalFactor :=
      (dot2 (div2 k norm_k) (normalize2 (windDirection wp))) ^ 2 in
    let dampingFactor := exp (- (norm_k ^ 2 * (damping wp) ^ 2)) in
    A wp * exp (- (1 / (norm_k ^ 2 * L ^ 2))) / norm_k ^ 4
      * directionalFactor * dampingFactor.

(** Parameters with a wind of 1500 in each component, for which the
    length scale L is about 4.6e5. *)
Definition strong_wind_params : WaveParameters :=
  {| A := 0.0001; windSpeed := Vec2 1500 1500; windDirection := Vec2 1 1;
     lambda := -1; L := 200; damping := 0.001; gravity := 9.81 |}.

(** The default configuration with another resolution. *)
Definition config_with_N (n : Z) : OceanConfig :=
  {| N := n; oceanSize := 1000; timeScale := 1; enableChoppiness := true;
     enableFoam := true; foamThreshold := 0.8 |}.

(** The wavevector of cell (n, m): 2 pi (index - N/2) / oceanSize on
    each axis. *)
Definition wavevector (cfg : OceanConfig) (m n : Z) : vec2 :=
  Vec2 (2 * PI * IZR (n - N cfg ÷ 2) / oceanSize cfg)
       (2 * PI * IZR (m - N cfg ÷ 2) / oceanSize cfg).

(** How many values the generator has handed out when the loops reach
    cell (m, n): two for every earlier cell, in row-major order, whose
    wavevector is not (nearly) zero. *)
Fixpoint draws_in_row (cfg : OceanConfig) (m : Z) (n : nat) : nat :=
  match n with
  | O => 0
  | Datatypes.S n' =>
      draws_in_row cfg m n'
      + (if Rlt_dec (length2 (wavevector cfg m (Z.of_nat n'))) 0.000001
         then 0 else 2)
  end.

Fixpoint draws_in_rows (cfg : OceanConfig) (m : nat) : nat :=
  match m with
  | O => 0
  | Datatypes.S m' =>
      draws_in_rows cfg m' + draws_in_row cfg (Z.of_nat m') (Z.to_nat (N cfg))
  end.

Definition draws_before (cfg : OceanConfig) (m n : Z) : nat :=
  draws_in_rows cfg (Z.to_nat m) + draws_in_row cfg m (Z.to_nat n).

(** The value the specification gives cell (n, m): complex zero where
    |k| is (nearly) zero, otherwise a complex sample, its real and
    imaginary parts two successive values of the generator, scaled by
    sqrt(Phillips(k) / 2). *)
Definition expected_cell (gaussianDist : nat -> R) (wp : WaveParameters)
    (cfg : OceanConfig) (r0 : nat) (m n : Z) : Complex :=
  let k := wavevector cfg m n in
  if Rlt_dec (length2 k) 0.000001 then mkComplex 0 0
  else
    let j := (r0 + draws_before cfg m n)%nat in
    let scale := sqrt (PhillipsSpectrum wp k / 2) in
    mkComplex (gaussianDist j * scale) (gaussianDist (Datatypes.S j) * scale).

(** The cells before row-major position [upto] hold their values. *)
Definition filled (gaussianDist : nat -> R) (wp : WaveParameters)
    (cfg : OceanConfig) (r0 : nat) (upto : Z) (spectrum : list Complex) : Prop :=
  forall m n : Z,
    (0 <= m)%Z -> (0 <= n < N cfg)%Z -> (m * N cfg + n < upto)%Z ->
    spectrum !! Z.to_nat (m * N cfg + n) =
    Some (expected_cell gaussianDist wp cfg r0 m n).

End OceanFFTSpec.

(** ** The rest of the host code of the Gerstner ocean

    [Ocean::Initialize] and [Ocean::Cleanup] of Ocean.cpp, and the
    factory function [CreateCustomOcean].  The device reports whether the files
    [shaders/ocean_simple.vert] and [shaders/ocean_simple.frag] load;
    [SetupVertexData] and [CreateTextures] only talk to the device. *)

Module OceanHost.
Import Ocean.

Definition set_config (o : t) (cfg : OceanConfig) : t :=
  {| vertices := vertices o; normals := normals o; texCoords := texCoords o;
     indices := indices o; config := cfg; time := time o;
     isInitialized := isInitialized o |}.

Definition set_isInitialized (o : t) (b : bool) : t :=
  {| vertices := vertices o; normals := normals o; texCoords := texCoords o;
     indices := indices o; config := config o; time := time o;
     isInitialized := b |}.

(** The object the constructor builds. *)
Definition new : t :=
  {| vertices := []; normals := []; texCoords := []; indices := [];
     config := default_config; time := 0; isInitialized := false |}.

Definition Cleanup (o : t) : t := set_isInitialized o false.

Definition Initialize (shaders_load : bool) (o : t) (cfg : OceanConfig) : bool * t :=
  let o := if isInitialized o then Cleanup o else o in
  let o := set_config o cfg in
  if negb shaders_load then (false, o)
  else
    let o := GenerateMesh o in
    let o := set_isInitialized o true in
    (true, o).


End OceanHost.

(** ** The bit reversal of the spectral ocean

    [OceanFFT::ReverseBits] on [unsigned int]: the left shift wraps at
    32 bits, the right shift is logical. *)

Module OceanFFTBits.

Definition ReverseBits_step (st : Z * Z) : Z * Z :=
  let '(result, value) := st in
  (Z.lor (Z.shiftl result 1 mod 2 ^ 32) (Z.land value 1), Z.shiftr value 1).

Definition ReverseBits (value : Z) (numBits : Z) : Z :=
  fst (for_range 0 numBits (fun _ st => ReverseBits_step st) (0%Z, value)).

(** After [i] iterations the low [i] bits of the input sit reversed in
    [result] and the rest of the input is still in [value]. *)
Definition reversed_so_far (v0 i : Z) (st : Z * Z) : Prop :=
  snd st = Z.shiftr v0 i /\
  forall j, (0 <= j)%Z ->
    Z.testbit (fst st) j = (j <? i)%Z && Z.testbit v0 (i - 1 - j).

End OceanFFTBits.

(** ** Vocabulary for the further properties *)

Module Vocabulary.

(** The opposite wavevector. *)
Definition neg2 (a : vec2) : vec2 := Vec2 (- x2 a) (- y2 a).



(** The default configuration of the Gerstner ocean with the sign of
    the base frequency flipped. *)
Definition negative_frequency_config : Ocean.OceanConfig :=
  {| Ocean.resolution := 256;
     Ocean.size := 1000;
     Ocean.windDirection := Vec2 1 0.5;
     Ocean.windSpeed := 25;
     Ocean.waveAmplitude := 2;
     Ocean.waveFrequency := -0.02;
     Ocean.numWaves := 6;
     Ocean.deepColor := Vec3 0 0.1 0.3;
     Ocean.shallowColor := Vec3 0.1 0.6 0.8;
     Ocean.fresnelStrength := 2;
     Ocean.specularStrength := 100;
     Ocean.roughness := 0.02;
     Ocean.transparency := 0.8;
     Ocean.refractionStrength := 0.1 |}.

End Vocabulary.

(** * Properties *)

(** ** Loops as folds over the visited indices *)

Lemma for_loop_foldl {S : Type} (body : Z -> S -> S) (count : nat) (i : Z) (s : S) :
  for_loop count i body s = foldl (fun s i => body i s) s (iota count i).
Proof.
  revert i s. induction count as [|c IH]; intros i s; simpl; [reflexivity|].
  apply IH.
Qed.

Lemma for_loop_push {X : Type} (f : Z -> X) (count : nat) (i : Z) (l : list X) :
  for_loop count i (fun i l => l ++ [f i]) l = l ++ map f (iota count i).
Proof.
  revert i l. induction count as [|c IH]; intros i l; simpl.
  - by rewrite app_nil_r.
  - rewrite IH. by rewrite <- app_assoc.
Qed.

Lemma for_loop_append {X : Type} (f : Z -> list X) (count : nat) (i : Z) (l : list X) :
  for_loop count i (fun i l => l ++ f i) l = l ++ flat_map f (iota count i).
Proof.
  revert i l. induction count as [|c IH]; intros i l; simpl.
  - by rewrite app_nil_r.
  - rewrite IH. by rewrite <- app_assoc.
Qed.

Lemma for_loop_ext {S : Type} (body1 body2 : Z -> S -> S) (count : nat) (i : Z) (s : S) :
  (forall j s, body1 j s = body2 j s) ->
  for_loop count i body1 s = for_loop count i body2 s.
Proof.
  intros H. revert i s. induction count as [|c IH]; intros i s; simpl; [reflexivity|].
  rewrite H. apply IH.
Qed.

Lemma length_iota (count : nat) (i : Z) : length (iota count i) = count.
Proof. revert i. induction count as [|c IH]; intros i; simpl; [reflexivity|]. by rewrite IH. Qed.

Lemma lookup_iota (count : nat) (i : Z) (j : nat) :
  (j < count)%nat -> iota count i !! j = Some (i + Z.of_nat j)%Z.
Proof.
  revert i j. induction count as [|c IH]; intros i j Hj; [lia|].
  destruct j as [|j]; simpl.
  - f_equal. lia.
  - rewrite IH by lia. f_equal. lia.
Qed.

Lemma elem_of_iota (count : nat) (i j : Z) :
  j ∈ iota count i <-> (i <= j < i + Z.of_nat count)%Z.
Proof.
  revert i. induction count as [|c IH]; intros i; simpl.
  - rewrite elem_of_nil. lia.
  - rewrite elem_of_cons, IH. lia.
Qed.

Lemma elem_of_range (lo hi j : Z) : j ∈ range lo hi <-> (lo <= j < hi)%Z.
Proof. unfold range. rewrite elem_of_iota. lia. Qed.

Lemma iota_snoc (count : nat) (i : Z) :
  iota (Datatypes.S count) i = iota count i ++ [(i + Z.of_nat count)%Z].
Proof.
  revert i. induction count as [|c IH]; intros i.
  - simpl. by rewrite Z.add_0_r.
  - change (iota (Datatypes.S (Datatypes.S c)) i)
      with (i :: iota (Datatypes.S c) (i + 1)%Z).
    rewrite IH. simpl. do 3 f_equal. lia.
Qed.

(** ** The Gerstner wave set *)

Module OceanFacts.
Import Ocean.

Lemma GenerateWaveSet_map (cfg : OceanConfig) :
  GenerateWaveSet cfg = map (make_wave cfg) (range 0 (numWaves cfg)).
Proof. unfold GenerateWaveSet, for_range, range. by rewrite for_loop_push. Qed.

Lemma elem_of_GenerateWaveSet (cfg : OceanConfig) (w : Wave) :
  w ∈ GenerateWaveSet cfg <->
  exists i, (0 <= i < numWaves cfg)%Z /\ w = make_wave cfg i.
Proof.
  rewrite GenerateWaveSet_map, list_elem_of_fmap.
  split; intros (i & H1 & H2); exists i.
  - apply elem_of_range in H2. by split.
  - split; [done|]. by apply elem_of_range.
Qed.

Lemma make_wave_frequency_pos (cfg : OceanConfig) (i : Z) :
  (0 <= i)%Z -> 0 < waveFrequency cfg -> 0 < frequency (make_wave cfg i).
Proof.
  intros Hi Hf. simpl. apply IZR_le in Hi.
  apply Rmult_lt_0_compat; lra.
Qed.

Lemma make_wave_amplitude_pos (cfg : OceanConfig) (i : Z) :
  (0 <= i)%Z -> 0 < waveAmplitude cfg -> 0 < amplitude (make_wave cfg i).
Proof.
  intros Hi Ha. simpl. apply IZR_le in Hi.
  apply Rdiv_lt_0_compat; lra.
Qed.

(** The stored steepness is the constant 0.8 divided by
    frequency * amplitude * count. *)
Lemma make_wave_steepness (cfg : OceanConfig) (i : Z) :
  steepness (make_wave cfg i) =
  0.8 / (frequency (make_wave cfg i) * amplitude (make_wave cfg i)
         * IZR (numWaves cfg)).
Proof. reflexivity. Qed.

(** C6, as the code has it: for a configuration with K >= 1 waves and
    a positive base frequency and amplitude, every wave of the generated
    set satisfies steepness * amplitude * K <= 1 / frequency + eps, for
    every tolerance eps >= 0. *)
Theorem GenerateWaveSet_steepness_bound (cfg : OceanConfig) (eps : R) (w : Wave) :
  (1 <= numWaves cfg)%Z ->
  0 < waveFrequency cfg ->
  0 < waveAmplitude cfg ->
  0 <= eps ->
  w ∈ GenerateWaveSet cfg ->
  steepness w * amplitude w * IZR (numWaves cfg) <= 1 / frequency w + eps.
Proof.
  intros HK Hf Ha Heps Hw.
  apply elem_of_GenerateWaveSet in Hw as (i & [Hi _] & ->).
  pose proof (make_wave_frequency_pos cfg i Hi Hf) as Hfi.
  pose proof (make_wave_amplitude_pos cfg i Hi Ha) as Hai.
  rewrite make_wave_steepness.
  set (f := frequency (make_wave cfg i)) in *.
  set (a := amplitude (make_wave cfg i)) in *.
  assert (HKr : 1 <= IZR (numWaves cfg)) by (by apply IZR_le).
  replace (0.8 / (f * a * IZR (numWaves cfg)) * a * IZR (numWaves cfg))
    with (0.8 / f) by (field; lra).
  assert (0.8 / f <= 1 / f); [|lra].
  apply Rmult_le_compat_r; [|lra].
  left. by apply Rinv_0_lt_compat.
Qed.

(** C9, as the code has it: every wave of the generated set stores
    steepness = 0.8 / (frequency * amplitude * K); for a positive base
    frequency and amplitude and K >= 1 this value is positive, and it
    is at most 1 exactly when frequency * amplitude * K >= 0.8. *)
Theorem GenerateWaveSet_steepness_value (cfg : OceanConfig) (w : Wave) :
  (1 <= numWaves cfg)%Z ->
  0 < waveFrequency cfg ->
  0 < waveAmplitude cfg ->
  w ∈ GenerateWaveSet cfg ->
  steepness w = 0.8 / (frequency w * amplitude w * IZR (numWaves cfg)) /\
  0 < steepness w /\
  (steepness w <= 1 <-> 0.8 <= frequency w * amplitude w * IZR (numWaves cfg)).
Proof.
  intros HK Hf Ha Hw.
  apply elem_of_GenerateWaveSet in Hw as (i & [Hi _] & ->).
  pose proof (make_wave_frequency_pos cfg i Hi Hf) as Hfi.
  pose proof (make_wave_amplitude_pos cfg i Hi Ha) as Hai.
  rewrite make_wave_steepness.
  set (f := frequency (make_wave cfg i)) in *.
  set (a := amplitude (make_wave cfg i)) in *.
  assert (HKr : 1 <= IZR (numWaves cfg)) by (by apply IZR_le).
  assert (Hp : 0 < f * a * IZR (numWaves cfg)).
  { apply Rmult_lt_0_compat; [apply Rmult_lt_0_compat; lra | lra]. }
  split; [reflexivity|]. split.
  - apply Rdiv_lt_0_compat; lra.
  - split; intros H.
    + apply (Rmult_le_compat_r (f * a * IZR (numWaves cfg))) in H; [|lra].
      replace (0.8 / (f * a * IZR (numWaves cfg)) * (f * a * IZR (numWaves cfg)))
        with 0.8 in H by (field; lra).
      lra.
    + apply (Rmult_le_reg_r (f * a * IZR (numWaves cfg))); [lra|].
      replace (0.8 / (f * a * IZR (numWaves cfg)) * (f * a * IZR (numWaves cfg)))
        with 0.8 by (field; lra).
      lra.
Qed.

Lemma GenerateWaveSet_steepness_value_witness :
  let w := make_wave default_config 0 in
  w ∈ GenerateWaveSet default_config /\
  steepness w = 0.8 / (frequency w * amplitude w * IZR (numWaves default_config)) /\
  0 < steepness w /\
  (steepness w <= 1 <->
   0.8 <= frequency w * amplitude w * IZR (numWaves default_config)).
Proof.
  assert (Hw : make_wave default_config 0 ∈ GenerateWaveSet default_config).
  { apply elem_of_GenerateWaveSet. exists 0%Z. split; [simpl; lia | reflexivity]. }
  split; [exact Hw|].
  apply (GenerateWaveSet_steepness_value default_config _); simpl; [lia | lra | lra | exact Hw].
Defined.

(** The first wave of the default configuration of Ocean.hpp
    (frequency 0.02, amplitude 2, six waves) has steepness 10/3: the
    stored steepness is not in [0, 1]. *)
Lemma default_steepness_above_one :
  make_wave default_config 0 ∈ GenerateWaveSet default_config /\
  ~ (0 <= steepness (make_wave default_config 0) <= 1).
Proof.
  split.
  - apply elem_of_GenerateWaveSet. exists 0%Z. split; [simpl; lia | reflexivity].
  - simpl. intros [_ H].
    assert (E : 0.8 / (0.02 * (1 + 0 * 0.3) * (2 / (1 + 0 * 0.5)) * 6) = 10 / 3)
      by lra.
    rewrite E in H. lra.
Qed.

(** Nothing checks the sign of the base frequency: with the default
    configuration and waveFrequency = -0.02 the first wave has
    steepness * amplitude * K = -40 against 1 / frequency = -50, so the
    bound fails for every tolerance below 10. *)
Lemma steepness_bound_negative_frequency :
  let cfg := Vocabulary.negative_frequency_config in
  let w := make_wave cfg 0 in
  (1 <= numWaves cfg)%Z /\
  w ∈ GenerateWaveSet cfg /\
  steepness w * amplitude w * IZR (numWaves cfg) = -40 /\
  1 / frequency w = -50 /\
  ~ (steepness w * amplitude w * IZR (numWaves cfg) <= 1 / frequency w + 1).
Proof.
  intros cfg w.
  assert (E1 : steepness w * amplitude w * IZR (numWaves cfg) = -40).
  { cbn. lra. }
  assert (E2 : 1 / frequency w = -50).
  { cbn. lra. }
  split; [cbn; lia|]. split.
  - apply elem_of_GenerateWaveSet. exists 0%Z. split; [cbn; lia | reflexivity].
  - split; [exact E1|]. split; [exact E2|]. rewrite E1, E2. lra.
Qed.

Lemma GenerateWaveSet_steepness_bound_witness :
  let w := make_wave default_config 0 in
  steepness w * amplitude w * IZR (numWaves default_config)
    <= 1 / frequency w + 0.
Proof.
  apply (GenerateWaveSet_steepness_bound default_config 0); simpl; [lia | lra | lra | lra |].
  apply elem_of_GenerateWaveSet. exists 0%Z. split; [simpl; lia | reflexivity].
Defined.

(** With a single wave the height at the origin at time zero is the
    amplitude times the sine of the phase of that wave. *)
Lemma SampleWaveHeight_single_origin (o : t) :
  numWaves (config o) = 1%Z ->
  GenerateWaveSet (config o) = [make_wave (config o) 0] /\
  SampleWaveHeight o 0 0 0 =
    amplitude (make_wave (config o) 0) * sin (phase (make_wave (config o) 0)).
Proof.
  intros HK.
  assert (E : GenerateWaveSet (config o) = [make_wave (config o) 0]).
  { unfold GenerateWaveSet, for_range. rewrite HK. reflexivity. }
  split; [exact E|].
  unfold SampleWaveHeight. rewrite E.
  destruct (Rlt_dec 0 0) as [H|_]; [lra|].
  cbn [foldl]. unfold height_step, dot2. cbn [x2 y2].
  rewrite Rplus_0_l. f_equal. f_equal. ring.
Qed.

(** The single wave of a configuration whose wind blows along x
    travels along x: its normalised direction is (1, 0), and amplitude,
    frequency and phase are the base amplitude, the base frequency and
    zero. *)
Lemma single_wave_along_x (cfg : OceanConfig) :
  windDirection cfg = Vec2 1 0 ->
  normalize2 (direction (make_wave cfg 0)) = Vec2 1 0 /\
  amplitude (make_wave cfg 0) = waveAmplitude cfg /\
  frequency (make_wave cfg 0) = waveFrequency cfg /\
  phase (make_wave cfg 0) = 0.
Proof.
  intros Hd. cbn [direction amplitude frequency phase make_wave]. rewrite Hd.
  assert (Hn : normalize2 (Vec2 1 0) = Vec2 1 0).
  { unfold normalize2, scale2, dot2. cbn [x2 y2].
    replace (1 * 1 + 0 * 0) with 1 by ring. rewrite sqrt_1. f_equal; lra. }
  replace (0 * 0.785398) with 0 by lra. rewrite cos_0, sin_0, Hn.
  assert (Hm : mix2 (Vec2 1 0) (Vec2 1 0) 0.7 = Vec2 1 0).
  { unfold mix2, add2, scale2. cbn [x2 y2]. f_equal; lra. }
  rewrite Hm, Hn. repeat split; [field | ring | ring].
Qed.

(** C8: with windDirection = (1,0), waveAmplitude = 1, waveFrequency =
    0.02 and numWaves = 1, the generated set is one wave, with phase 0,
    and SampleWaveHeight(0, 0, 0) is waveAmplitude * sin(phase of that
    wave).  It is so because the query evaluates the Gerstner height of
    that wave: at every position (x, z) and time t >= 0 it returns
    waveAmplitude * sin(x * waveFrequency + t * sqrt(9.8 / waveFrequency) + phase),
    which is the amplitude itself a quarter wavelength from the origin
    (x = 25 pi at time 0). *)
Theorem SampleWaveHeight_end_to_end (o : t) (x z tm : R) :
  windDirection (config o) = Vec2 1 0 ->
  waveAmplitude (config o) = 1 ->
  waveFrequency (config o) = 0.02 ->
  numWaves (config o) = 1%Z ->
  exists wave0,
    GenerateWaveSet (config o) = [wave0] /\
    SampleWaveHeight o 0 0 0 = waveAmplitude (config o) * sin (phase wave0) /\
    phase wave0 = 0 /\
    (0 <= tm ->
     SampleWaveHeight o x z tm =
     waveAmplitude (config o)
     * sin (x * waveFrequency (config o)
            + tm * sqrt (9.8 / waveFrequency (config o)) + phase wave0)) /\
    SampleWaveHeight o (25 * PI) 0 0 = waveAmplitude (config o).
Proof.
  intros Hd Ha Hf HK.
  destruct (SampleWaveHeight_single_origin o HK) as [E H].
  destruct (single_wave_along_x (config o) Hd) as (Dn & Da & Dq & Dp).
  assert (Hgen : forall x' z' t', 0 <= t' ->
            SampleWaveHeight o x' z' t' =
            waveAmplitude (config o)
            * sin (x' * waveFrequency (config o)
                   + t' * sqrt (9.8 / waveFrequency (config o))
                   + phase (make_wave (config o) 0))).
  { intros x' z' t' Ht. unfold SampleWaveHeight. rewrite E.
    destruct (Rlt_dec t' 0) as [Hlt|_]; [lra|].
    cbn [foldl]. unfold height_step. rewrite Dn, Da, Dq.
    unfold dot2. cbn [x2 y2]. rewrite Rplus_0_l. f_equal. f_equal. ring. }
  exists (make_wave (config o) 0).
  split; [exact E|]. split; [rewrite H, Da; reflexivity|].
  split; [exact Dp|]. split; [intros Ht; by apply Hgen|].
  rewrite Hgen by lra. rewrite Dp, Hf.
  replace (25 * PI * 0.02 + 0 * sqrt (9.8 / 0.02) + 0) with (PI / 2) by lra.
  rewrite sin_PI2. ring.
Qed.

Lemma SampleWaveHeight_end_to_end_witness :
  let o := Conformance.ocean_with Conformance.single_wave_config in
  exists wave0,
    GenerateWaveSet (config o) = [wave0] /\
    SampleWaveHeight o 0 0 0 = waveAmplitude (config o) * sin (phase wave0) /\
    phase wave0 = 0 /\
    (0 <= 2 ->
     SampleWaveHeight o 3 4 2 =
     waveAmplitude (config o)
     * sin (3 * waveFrequency (config o)
            + 2 * sqrt (9.8 / waveFrequency (config o)) + phase wave0)) /\
    SampleWaveHeight o (25 * PI) 0 0 = waveAmplitude (config o).
Proof.
  exact (SampleWaveHeight_end_to_end
           (Conformance.ocean_with Conformance.single_wave_config) 3 4 2
           eq_refl eq_refl eq_refl eq_refl).
Defined.

End OceanFacts.

(** ** Host evaluator against the vertex shaders *)

Module ConformanceFacts.
Import Conformance.

(** The per-wave functions are the same expression. *)
Lemma GerstnerWave_eq (o : Ocean.t) (pos : vec2) (w : Ocean.Wave) (tm : R)
    (tangent binormal : vec3) :
  Ocean.CalculateGerstnerWave (Ocean.config o) pos w tm tangent binormal =
  ocean_vert.GerstnerWave (uniforms_of o) pos (to_gpu_wave w) tm tangent binormal.
Proof. reflexivity. Qed.

Lemma main_waves_eq (o : Ocean.t) :
  (Ocean.numWaves (Ocean.config o) <= 8)%Z ->
  ocean_vert.main_waves (uniforms_of o) =
  map to_gpu_wave (Ocean.GenerateWaveSet (Ocean.config o)).
Proof.
  intros HK. unfold ocean_vert.main_waves, Ocean.GenerateWaveSet, for_range.
  cbn [ocean_vert.u_numWaves uniforms_of].
  rewrite Z.min_l by lia.
  rewrite !for_loop_push. cbn [app].
  rewrite map_map. reflexivity.
Qed.

(** A loop that reads [ws[i]] at iteration [i] folds over a prefix. *)
Lemma for_loop_lookup {X S : Type} (F : X -> S -> S) (ws : list X)
    (count k : nat) (s : S) :
  (k + count <= length ws)%nat ->
  for_loop count (Z.of_nat k)
    (fun i st => match ws !! Z.to_nat i with Some w => F w st | None => st end) s
  = foldl (fun st w => F w st) s (take count (drop k ws)).
Proof.
  revert k s. induction count as [|c IH]; intros k s Hk; simpl.
  - reflexivity.
  - rewrite Nat2Z.id.
    destruct (lookup_lt_is_Some_2 ws k) as [w Hw]; [lia|].
    rewrite Hw. rewrite (drop_S _ _ _ Hw). cbn [take foldl].
    replace (Z.of_nat k + 1)%Z with (Z.of_nat (Datatypes.S k)) by lia.
    apply IH. lia.
Qed.

(** The accumulated y displacement of the shader loop is the running
    height of the host loop. *)
Lemma shader_fold_height (u : ocean_vert.Uniforms) (pos : vec2) (tm : R)
    (ws : list Ocean.Wave) (D T B : vec3) :
  y3 (fst (fst (foldl
    (fun st w =>
       let '(totalDisplacement, tangent, binormal) := st in
       let '(disp, tangent', binormal') :=
         ocean_vert.GerstnerWave u pos w tm tangent binormal in
       (add3 totalDisplacement disp, tangent', binormal'))
    (D, T, B) (map to_gpu_wave ws))))
  = foldl (Ocean.height_step pos tm) (y3 D) ws.
Proof.
  revert D T B. induction ws as [|w ws IH]; intros D T B; [reflexivity|].
  cbn [map foldl]. unfold ocean_vert.GerstnerWave at 2.
  rewrite IH. reflexivity.
Qed.

Lemma main_height (o : Ocean.t) (aPos : vec3) :
  (Ocean.numWaves (Ocean.config o) <= 8)%Z ->
  y3 (fst (fst (ocean_vert.main (uniforms_of o) aPos))) =
  Ocean.SampleWaveHeight o (x3 aPos) (z3 aPos) (Ocean.time o).
Proof.
  intros HK. unfold ocean_vert.main, for_range.
  rewrite (main_waves_eq o HK).
  cbn [ocean_vert.u_numWaves ocean_vert.u_time uniforms_of].
  rewrite Z.min_l by lia. rewrite Z.sub_0_r.
  set (ws := Ocean.GenerateWaveSet (Ocean.config o)).
  assert (Hlen : length ws = Z.to_nat (Ocean.numWaves (Ocean.config o))).
  { unfold ws. rewrite OceanFacts.GenerateWaveSet_map, length_map.
    unfold range. rewrite length_iota. f_equal. lia. }
  set (F := fun (w : ocean_vert.Wave) (st : vec3 * vec3 * vec3) =>
       let '(totalDisplacement, tangent, binormal) := st in
       let '(disp, tangent', binormal') :=
         ocean_vert.GerstnerWave (uniforms_of o) (Vec2 (x3 aPos) (z3 aPos)) w
           (Ocean.time o) tangent binormal in
       (add3 totalDisplacement disp, tangent', binormal')).
  set (n := Z.to_nat (Ocean.numWaves (Ocean.config o))) in *.
  transitivity (y3 (fst (fst (foldl (fun st w => F w st)
    (Vec3 0 0 0, Vec3 1 0 0, Vec3 0 0 1)
    (take n (drop 0 (map to_gpu_wave ws))))))).
  { do 3 f_equal.
    rewrite <- (for_loop_lookup F (map to_gpu_wave ws) n 0)
      by (rewrite length_map; lia).
    apply for_loop_ext. intros j [[D T] B]. reflexivity. }
  rewrite drop_0, take_ge by (rewrite length_map; lia).
  unfold F.
  rewrite shader_fold_height.
  unfold Ocean.SampleWaveHeight. fold ws.
  destruct (Rlt_dec (Ocean.time o) 0); reflexivity.
Qed.

(** C1, as the code has it: read as formulas over the reals (rounding
    is not modelled, and no tolerance is promised of the two binary32
    evaluations), the per-wave evaluator of ocean.vert is the same
    function as CalculateGerstnerWave: equal displacement, tangent and
    binormal for every position, time and wave; and for a wave count
    between 0 and 8, with the uniforms set from the host configuration,
    the height the shader adds to a vertex equals the height
    SampleWaveHeight returns there.  Nothing is promised for
    ocean_simple.vert, the shader the host loads. *)
Theorem gerstner_shader_agrees_with_host (o : Ocean.t) (pos : vec2)
    (w : Ocean.Wave) (tm : R) (tangent binormal aPos : vec3) :
  Ocean.CalculateGerstnerWave (Ocean.config o) pos w tm tangent binormal =
  ocean_vert.GerstnerWave (uniforms_of o) pos (to_gpu_wave w) tm tangent binormal /\
  ((0 <= Ocean.numWaves (Ocean.config o) <= 8)%Z ->
   y3 (fst (fst (ocean_vert.main (uniforms_of o) aPos))) =
   Ocean.SampleWaveHeight o (x3 aPos) (z3 aPos) (Ocean.time o)).
Proof.
  split; [apply GerstnerWave_eq|].
  intros [_ HK]. exact (main_height o aPos HK).
Qed.

Lemma gerstner_shader_agrees_with_host_witness :
  let o := ocean_with single_wave_config in
  let w := Ocean.make_wave single_wave_config 0 in
  (0 <= Ocean.numWaves (Ocean.config o) <= 8)%Z /\
  y3 (fst (fst (ocean_vert.main (uniforms_of o) (Vec3 0 0 0)))) =
  Ocean.SampleWaveHeight o 0 0 (Ocean.time o).
Proof.
  intros o w.
  assert (HK : (0 <= Ocean.numWaves (Ocean.config o) <= 8)%Z) by (simpl; lia).
  split; [exact HK|].
  exact (proj2 (gerstner_shader_agrees_with_host o (Vec2 0 0) w 0
    (Vec3 1 0 0) (Vec3 0 0 1) (Vec3 0 0 0)) HK).
Defined.

(** The shader Ocean::Initialize loads: for the single-wave
    configuration, at the origin and time zero, the host evaluator
    displaces the surface by 0 in height and ocean_simple.vert by
    0.05. *)
Lemma simple_shader_disagrees_with_host :
  let o := ocean_with single_wave_config in
  let w := Ocean.make_wave single_wave_config 0 in
  let cpu := fst (fst (Ocean.CalculateGerstnerWave single_wave_config
               (Vec2 0 0) w 0 (Vec3 1 0 0) (Vec3 0 0 1))) in
  let gpu := ocean_simple_vert.main_displacement (simple_uniforms_of o) (Vec3 0 0 0) in
  Ocean.GenerateWaveSet single_wave_config = [w] /\
  y3 cpu = 0 /\
  Ocean.SampleWaveHeight o 0 0 0 = 0 /\
  y3 gpu = 0.05 /\
  ~ within 1e-4 cpu gpu.
Proof.
  intros o w cpu gpu.
  assert (Hw : Ocean.GenerateWaveSet single_wave_config = [w]) by reflexivity.
  assert (Hcpu : y3 cpu = 0).
  { unfold cpu, Ocean.CalculateGerstnerWave. cbn [fst y3].
    unfold dot2. cbn [x2 y2 Ocean.phase Ocean.amplitude Ocean.frequency w Ocean.make_wave].
    match goal with |- _ * sin ?a = 0 => replace a with 0 by ring end.
    rewrite sin_0. ring. }
  assert (Hgpu : y3 gpu = 0.05).
  { unfold gpu, ocean_simple_vert.main_displacement, ocean_simple_vert.main_worldPos.
    cbn [y3 x3 z3 add3 scale3 ocean_simple_vert.u_time
         ocean_simple_vert.u_waveAmplitude simple_uniforms_of o ocean_with
         Ocean.time Ocean.config Ocean.waveAmplitude single_wave_config].
    replace (0 * 0.1 + 0) with 0 by lra.
    replace (0 * 0.15 + 0 * 0.8) with 0 by lra.
    rewrite sin_0, cos_0. lra. }
  split; [exact Hw|]. split; [exact Hcpu|]. split.
  - destruct (OceanFacts.SampleWaveHeight_single_origin o eq_refl) as [_ H].
    rewrite H. cbn [Ocean.phase Ocean.make_wave].
    replace (0 * 1.57079) with 0 by lra. rewrite sin_0. ring.
  - split; [exact Hgpu|].
    intros Hin. destruct Hin as (_ & H & _). rewrite Hcpu, Hgpu in H.
    rewrite Rabs_left in H; lra.
Qed.

End ConformanceFacts.

(** ** The grid mesh *)

Module MeshFacts.
Import Ocean GridLayout.

Lemma length_flat_map_rows {X : Type} (f : Z -> list X) (n rows : nat) (i0 : Z) :
  (forall j, length (f j) = n) ->
  length (flat_map f (iota rows i0)) = (rows * n)%nat.
Proof.
  intros Hf. revert i0. induction rows as [|r IH]; intros i0; simpl; [reflexivity|].
  rewrite length_app, Hf, IH. reflexivity.
Qed.

(** Row [z], column [x] of a concatenation of rows of equal length. *)
Lemma lookup_flat_map_rows {X : Type} (f : Z -> list X) (n rows : nat) (i0 : Z)
    (z x : nat) :
  (forall j, length (f j) = n) ->
  (z < rows)%nat -> (x < n)%nat ->
  flat_map f (iota rows i0) !! (z * n + x)%nat = f (i0 + Z.of_nat z)%Z !! x.
Proof.
  intros Hf. revert i0 z. induction rows as [|r IH]; intros i0 z Hz Hx; [lia|].
  simpl. destruct z as [|z].
  - rewrite lookup_app_l by (rewrite Hf; lia).
    simpl. by rewrite Z.add_0_r.
  - rewrite lookup_app_r by (rewrite Hf; lia).
    rewrite Hf.
    replace (Datatypes.S z * n + x - n)%nat with (z * n + x)%nat by lia.
    rewrite IH by lia. f_equal. f_equal. lia.
Qed.

(** The three vertex streams grow together. *)
Lemma for_loop_streams {X Y W : Type} (a : Z -> X) (b : Z -> Y) (c : Z -> W)
    (count : nat) (i : Z) (xs : list X) (ys : list Y) (ws : list W) :
  for_loop count i
    (fun x (st : list X * list Y * list W) =>
       let '(vs, ns, ts) := st in (vs ++ [a x], ns ++ [b x], ts ++ [c x]))
    (xs, ys, ws)
  = (xs ++ map a (iota count i), ys ++ map b (iota count i),
     ws ++ map c (iota count i)).
Proof.
  revert i xs ys ws. induction count as [|n IH]; intros i xs ys ws; simpl.
  - by rewrite !app_nil_r.
  - rewrite IH. by rewrite <- !app_assoc.
Qed.

Lemma for_loop_streams_rows {X Y W : Type} (a : Z -> Z -> X) (b : Z -> Z -> Y)
    (c : Z -> Z -> W) (rows cols : nat) (i j : Z)
    (xs : list X) (ys : list Y) (ws : list W) :
  for_loop rows i
    (fun z st =>
       for_loop cols j
         (fun x (st : list X * list Y * list W) =>
            let '(vs, ns, ts) := st in
            (vs ++ [a z x], ns ++ [b z x], ts ++ [c z x])) st)
    (xs, ys, ws)
  = (xs ++ flat_map (fun z => map (a z) (iota cols j)) (iota rows i),
     ys ++ flat_map (fun z => map (b z) (iota cols j)) (iota rows i),
     ws ++ flat_map (fun z => map (c z) (iota cols j)) (iota rows i)).
Proof.
  revert i xs ys ws. induction rows as [|n IH]; intros i xs ys ws; simpl.
  - by rewrite !app_nil_r.
  - rewrite (for_loop_streams (a i) (b i) (c i)), IH.
    by rewrite <- !app_assoc.
Qed.

Lemma for_loop_append_rows {X : Type} (f : Z -> Z -> list X) (rows cols : nat)
    (i j : Z) (l : list X) :
  for_loop rows i (fun z l => for_loop cols j (fun x l => l ++ f z x) l) l
  = l ++ flat_map (fun z => flat_map (f z) (iota cols j)) (iota rows i).
Proof.
  rewrite (for_loop_ext _ (fun z l => l ++ flat_map (f z) (iota cols j))).
  - apply for_loop_append.
  - intros z l'. apply for_loop_append.
Qed.

Lemma GenerateIndices_closed (o : t) :
  indices (GenerateIndices o) =
  flat_map (fun z => flat_map (cell_indices (config o) z)
                       (range 0 (resolution (config o))))
           (range 0 (resolution (config o))).
Proof.
  unfold GenerateIndices, for_range, range. cbn [indices].
  apply (for_loop_append_rows (cell_indices (config o))).
Qed.

Lemma GenerateMesh_closed (o : t) :
  let cfg := config o in
  let n := (resolution cfg + 1)%Z in
  GenerateMesh o =
  {| vertices := flat_map (fun z => map (grid_position cfg z) (range 0 n)) (range 0 n);
     normals := flat_map (fun z => map (fun _ => Vec3 0 1 0) (range 0 n)) (range 0 n);
     texCoords := flat_map (fun z => map (grid_uv cfg z) (range 0 n)) (range 0 n);
     indices := flat_map (fun z => flat_map (cell_indices cfg z)
                                     (range 0 (resolution cfg)))
                  (range 0 (resolution cfg));
     config := cfg; time := time o; isInitialized := isInitialized o |}.
Proof.
  intros cfg n. unfold GenerateMesh, for_range, range.
  rewrite (for_loop_streams_rows (grid_position cfg) (fun _ _ => Vec3 0 1 0)
             (grid_uv cfg)).
  cbn [app].
  match goal with |- GenerateIndices ?o' = _ =>
    pose proof (GenerateIndices_closed o') as Hi;
    unfold GenerateIndices in *; cbn [indices config vertices normals texCoords
      time isInitialized] in *; rewrite Hi
  end.
  reflexivity.
Qed.

(** C7: the mesh is a function of (resolution R, size) alone:
    generating it a second time changes nothing, and two surfaces with
    the same R >= 0 and size get identical vertex, normal, texture
    coordinate and index sequences, whatever they held before.  There
    are (R+1)^2 vertices, row-major on the square centred at the origin
    with side size (for R > 0, where the step size / R is defined),
    with UV = (x/R, z/R), and 2*R^2 triangles, the cell (z, x) giving
    (topLeft, bottomLeft, topRight) and (topRight, bottomLeft,
    bottomRight). *)
Theorem GenerateMesh_grid (o1 o2 : t) (z x : Z) :
  let R := resolution (config o1) in
  let sz := size (config o1) in
  (0 <= R)%Z ->
  resolution (config o2) = R ->
  size (config o2) = sz ->
  let m1 := GenerateMesh o1 in
  let m2 := GenerateMesh o2 in
  GenerateMesh m1 = m1 /\
  (vertices m1 = vertices m2 /\ normals m1 = normals m2 /\
   texCoords m1 = texCoords m2 /\ indices m1 = indices m2) /\
  length (vertices m1) = Z.to_nat ((R + 1) * (R + 1)) /\
  length (texCoords m1) = Z.to_nat ((R + 1) * (R + 1)) /\
  length (indices m1) = (3 * Z.to_nat (2 * R * R))%nat /\
  ((0 < R)%Z -> (0 <= z <= R)%Z -> (0 <= x <= R)%Z ->
   vertices m1 !! Z.to_nat (z * (R + 1) + x) =
     Some (Vec3 (- sz / 2 + IZR x * (sz / IZR R)) 0
                (- sz / 2 + IZR z * (sz / IZR R))) /\
   texCoords m1 !! Z.to_nat (z * (R + 1) + x) =
     Some (Vec2 (IZR x / IZR R) (IZR z / IZR R))) /\
  ((0 <= z < R)%Z -> (0 <= x < R)%Z ->
   let topLeft := (z * (R + 1) + x)%Z in
   let topRight := (topLeft + 1)%Z in
   let bottomLeft := ((z + 1) * (R + 1) + x)%Z in
   let bottomRight := (bottomLeft + 1)%Z in
   forall j, (j < 6)%nat ->
     indices m1 !! (6 * Z.to_nat (z * R + x) + j)%nat =
     [topLeft; bottomLeft; topRight; topRight; bottomLeft; bottomRight] !! j).
Proof.
  intros R sz HR HR2 Hsz m1 m2.
  pose proof (GenerateMesh_closed o1) as E1.
  pose proof (GenerateMesh_closed o2) as E2.
  cbv zeta in E1, E2. rewrite HR2 in E2.
  fold R sz in E1. fold m1 in E1. fold m2 in E2.
  assert (Hcfg : grid_position (config o2) = grid_position (config o1)
                 /\ grid_uv (config o2) = grid_uv (config o1)
                 /\ cell_indices (config o2) = cell_indices (config o1)).
  { unfold grid_position, grid_uv, cell_indices. rewrite HR2, Hsz. auto. }
  destruct Hcfg as (Hp & Hu & Hc). rewrite Hp, Hu, Hc in E2.
  set (n := Z.to_nat (R + 1)).
  assert (Hrange : range 0 (R + 1) = iota n 0).
  { unfold range, n. f_equal. lia. }
  assert (HrangeR : range 0 R = iota (Z.to_nat R) 0).
  { unfold range. f_equal. lia. }
  split.
  { rewrite (GenerateMesh_closed m1). cbv zeta. rewrite E1. reflexivity. }
  split.
  { rewrite E1, E2. cbn [vertices normals texCoords indices]. auto. }
  rewrite E1. cbn [vertices texCoords indices]. rewrite Hrange, HrangeR.
  split.
  { rewrite (length_flat_map_rows _ n) by (intros; by rewrite length_map, length_iota).
    unfold n. nia. }
  split.
  { rewrite (length_flat_map_rows _ n) by (intros; by rewrite length_map, length_iota).
    unfold n. nia. }
  split.
  { rewrite (length_flat_map_rows _ (Z.to_nat R * 6))
      by (intros; by apply length_flat_map_rows).
    nia. }
  split.
  - intros _ Hz Hx.
    replace (Z.to_nat (z * (R + 1) + x)) with (Z.to_nat z * n + Z.to_nat x)%nat
      by (unfold n; nia).
    rewrite !(lookup_flat_map_rows _ n)
      by (try (intros; by rewrite length_map, length_iota); unfold n; lia).
    rewrite !list_lookup_fmap, lookup_iota by (unfold n; lia).
    rewrite !Z.add_0_l, !Z2Nat.id by lia. cbn [fmap option_fmap option_map].
    split; [|reflexivity].
    unfold grid_position. fold R sz. f_equal. f_equal; lra.
  - intros Hz Hx j Hj.
    replace (6 * Z.to_nat (z * R + x) + j)%nat
      with (Z.to_nat z * (Z.to_nat R * 6) + (Z.to_nat x * 6 + j))%nat by nia.
    rewrite (lookup_flat_map_rows _ (Z.to_nat R * 6))
      by (try (intros; by apply length_flat_map_rows); nia).
    rewrite (lookup_flat_map_rows _ 6) by (try reflexivity; lia).
    rewrite !Z.add_0_l, !Z2Nat.id by lia. reflexivity.
Qed.

Lemma GenerateMesh_grid_witness :
  let m1 := GenerateMesh (Conformance.ocean_with example_config) in
  let m2 := GenerateMesh stale_ocean in
  (vertices m1 = vertices m2 /\ normals m1 = normals m2 /\
   texCoords m1 = texCoords m2 /\ indices m1 = indices m2) /\
  length (vertices m1) = 25%nat /\
  length (indices m1) = (3 * 32)%nat.
Proof.
  intros m1 m2.
  pose proof (GenerateMesh_grid (Conformance.ocean_with example_config)
                stale_ocean 1 2 ltac:(simpl; lia) eq_refl eq_refl) as H.
  cbv zeta in H. destruct H as (_ & H1 & H2 & _ & H3 & _).
  split; [exact H1|]. split; [exact H2 | exact H3].
Defined.

End MeshFacts.

(** ** The spectral ocean *)

Module OceanFFTFacts.
Import OceanFFT OceanFFTSpec.

(** *** The power-of-two test *)

Lemma land_even_odd (a b : Z) : Z.land (2 * a) (2 * b + 1) = (2 * Z.land a b)%Z.
Proof.
  apply Z.bits_inj'. intros n Hn.
  rewrite Z.land_spec.
  destruct (Z.eq_dec n 0%Z) as [->|Hne].
  - rewrite !Z.testbit_even_0. reflexivity.
  - replace n with (Z.succ (n - 1)) by lia.
    rewrite !Z.testbit_even_succ, Z.testbit_odd_succ, Z.land_spec by lia.
    reflexivity.
Qed.

Lemma land_odd_even (a : Z) : Z.land (2 * a + 1) (2 * a) = (2 * a)%Z.
Proof.
  apply Z.bits_inj'. intros n Hn.
  rewrite Z.land_spec.
  destruct (Z.eq_dec n 0%Z) as [->|Hne].
  - rewrite Z.testbit_odd_0, Z.testbit_even_0. reflexivity.
  - replace n with (Z.succ (n - 1)) by lia.
    rewrite Z.testbit_even_succ, Z.testbit_odd_succ by lia.
    apply andb_diag.
Qed.

Lemma land_pred_pos (p : positive) :
  Z.land (Z.pos p) (Z.pos p - 1) = 0%Z <->
  exists k : nat, Z.pos p = (2 ^ Z.of_nat k)%Z.
Proof.
  induction p as [p IH|p IH|].
  - replace (Z.pos p~1 - 1)%Z with (2 * Z.pos p)%Z by lia.
    replace (Z.pos p~1) with (2 * Z.pos p + 1)%Z by lia.
    rewrite land_odd_even. split; [lia|].
    intros [k Hk]. destruct k as [|k]; [simpl in Hk; lia|].
    rewrite Nat2Z.inj_succ, Z.pow_succ_r in Hk by lia. lia.
  - replace (Z.pos p~0 - 1)%Z with (2 * (Z.pos p - 1) + 1)%Z by lia.
    replace (Z.pos p~0) with (2 * Z.pos p)%Z by lia.
    rewrite land_even_odd. split.
    + intros H. destruct (proj1 IH) as [k Hk]; [lia|].
      exists (Datatypes.S k).
      rewrite Nat2Z.inj_succ, Z.pow_succ_r by lia. lia.
    + intros [k Hk]. destruct k as [|k]; [simpl in Hk; lia|].
      rewrite Nat2Z.inj_succ, Z.pow_succ_r in Hk by lia.
      assert (Z.land (Z.pos p) (Z.pos p - 1) = 0%Z); [|lia].
      apply IH. exists k. lia.
  - split; [|reflexivity]. intros _. exists 0%nat. reflexivity.
Qed.

(** [IsPowerOfTwo] holds exactly of the powers of two. *)
Lemma IsPowerOfTwo_spec (value : Z) :
  IsPowerOfTwo value = true <-> exists k, (0 <= k)%Z /\ value = (2 ^ k)%Z.
Proof.
  unfold IsPowerOfTwo. rewrite andb_true_iff, Z.ltb_lt, Z.eqb_eq. split.
  - intros [Hpos Hland]. destruct value as [|p|p]; try lia.
    apply land_pred_pos in Hland as [k Hk].
    exists (Z.of_nat k). split; [lia | exact Hk].
  - intros (k & Hk & ->).
    assert (Hp : (0 < 2 ^ k)%Z) by (apply Z.pow_pos_nonneg; lia).
    split; [exact Hp|].
    destruct (2 ^ k)%Z as [|p|p] eqn:E; try lia.
    apply land_pred_pos. exists (Z.to_nat k). rewrite Z2Nat.id by lia.
    by rewrite E.
Qed.

(** *** Initialization *)

Section Host.

Variable gaussianDist : nat -> R.
Variable shaders_load : bool.

Lemma Initialize_reject (o : t) (cfg : OceanConfig) :
  IsPowerOfTwo (N cfg) = false ->
  Initialize gaussianDist shaders_load o cfg =
  (false, set_config (set_isInitialized o false) cfg).
Proof.
  intros H. unfold Initialize.
  assert (E : (if isInitialized o then Cleanup o else o) = set_isInitialized o false).
  { destruct o as [wp c sp vs ind tm [|] r]; reflexivity. }
  rewrite E. cbn [config set_config]. rewrite H. reflexivity.
Qed.

Lemma Initialize_accept (o : t) (cfg : OceanConfig) :
  IsPowerOfTwo (N cfg) = true ->
  Initialize gaussianDist shaders_load o cfg =
  let o1 := set_config (set_isInitialized o false) cfg in
  let o2 := snd (CreateGeometry o1) in
  if shaders_load
  then (true, set_isInitialized (GenerateInitialSpectrum gaussianDist o2) true)
  else (false, o2).
Proof.
  intros H. unfold Initialize.
  assert (E : (if isInitialized o then Cleanup o else o) = set_isInitialized o false).
  { destruct o as [wp c sp vs ind tm [|] r]; reflexivity. }
  rewrite E. cbn [config set_config]. rewrite H.
  unfold CreateGeometry, CreateTextures, CreateFramebuffers, InitializeShaders.
  cbn [negb snd]. destruct shaders_load; reflexivity.
Qed.

(** A failed [Initialize] leaves the surface uninitialized. *)
Lemma Initialize_failed_uninitialized (o : t) (cfg : OceanConfig) :
  fst (Initialize gaussianDist shaders_load o cfg) = false ->
  isInitialized (snd (Initialize gaussianDist shaders_load o cfg)) = false.
Proof.
  destruct (IsPowerOfTwo (N cfg)) eqn:H.
  - rewrite (Initialize_accept o cfg H). cbv zeta.
    destruct shaders_load; [discriminate|]. intros _. reflexivity.
  - rewrite (Initialize_reject o cfg H). reflexivity.
Qed.

(** C2: [Initialize] fails when N is not a power of two, before
    anything is drawn from the generator or written to the spectrum
    (in particular for N = 100, 300, 513), and succeeds when N is a
    power of two (in particular for N = 64, 128, 512, 1024) and the
    device loads the shader files. *)
Theorem Initialize_power_of_two (o : t) (cfg : OceanConfig) :
  let result := Initialize gaussianDist shaders_load o cfg in
  ((forall k, (0 <= k)%Z -> N cfg <> (2 ^ k)%Z) ->
   fst result = false /\
   initialSpectrum (snd result) = initialSpectrum o /\
   rng (snd result) = rng o) /\
  ((exists k, (0 <= k)%Z /\ N cfg = (2 ^ k)%Z) ->
   shaders_load = true -> fst result = true) /\
  (N cfg = 100%Z \/ N cfg = 300%Z \/ N cfg = 513%Z -> fst result = false) /\
  (N cfg = 64%Z \/ N cfg = 128%Z \/ N cfg = 512%Z \/ N cfg = 1024%Z ->
   shaders_load = true -> fst result = true).
Proof.
  intros result.
  assert (Hno : IsPowerOfTwo (N cfg) = false -> fst result = false /\
            initialSpectrum (snd result) = initialSpectrum o /\
            rng (snd result) = rng o).
  { intros H. unfold result. rewrite (Initialize_reject o cfg H). auto. }
  assert (Hyes : IsPowerOfTwo (N cfg) = true -> shaders_load = true ->
            fst result = true).
  { intros H Hs. unfold result. rewrite (Initialize_accept o cfg H).
    cbv zeta. rewrite Hs. reflexivity. }
  split; [|split; [|split]].
  - intros Hk. apply Hno.
    destruct (IsPowerOfTwo (N cfg)) eqn:E; [|reflexivity].
    apply IsPowerOfTwo_spec in E as (k & Hk0 & Hk1). by destruct (Hk k Hk0).
  - intros Hk. apply Hyes. by apply IsPowerOfTwo_spec.
  - intros [H|[H|H]]; apply Hno; rewrite H; reflexivity.
  - intros [H|[H|[H|H]]]; apply Hyes; rewrite H; reflexivity.
Qed.

(** C5, as the code has it: with a resolution that is not a power of
    two, [Initialize] returns failure and leaves the wave parameters,
    the spectrum, the geometry, the time and the generator as they
    were, but the stored configuration is the rejected one and the
    surface is uninitialized; [Ocean::SetConfig] has no result and
    always stores the configuration it is given. *)
Theorem Initialize_invalid_state (o : t) (cfg : OceanConfig)
    (ocean : Ocean.t) (ocean_cfg : Ocean.OceanConfig) :
  (IsPowerOfTwo (N cfg) = false ->
   let result := Initialize gaussianDist shaders_load o cfg in
   fst result = false /\
   waveParams (snd result) = waveParams o /\
   initialSpectrum (snd result) = initialSpectrum o /\
   vertices (snd result) = vertices o /\
   indices (snd result) = indices o /\
   time (snd result) = time o /\
   rng (snd result) = rng o /\
   config (snd result) = cfg /\
   isInitialized (snd result) = false) /\
  Ocean.config (Ocean.SetConfig ocean ocean_cfg) = ocean_cfg.
Proof.
  split.
  - intros H result. unfold result. rewrite (Initialize_reject o cfg H).
    cbn. repeat split; reflexivity.
  - unfold Ocean.SetConfig, Ocean.UpdateMeshData. cbn [Ocean.isInitialized].
    destruct (Ocean.isInitialized ocean); [|reflexivity].
    rewrite MeshFacts.GenerateMesh_closed. reflexivity.
Qed.

End Host.

Lemma Initialize_power_of_two_witness :
  let result := Initialize (fun _ => 0) true new (config_with_N 64) in
  (exists k, (0 <= k)%Z /\ N (config_with_N 64) = (2 ^ k)%Z) /\
  fst result = true.
Proof.
  intros result.
  assert (Hk : exists k, (0 <= k)%Z /\ N (config_with_N 64) = (2 ^ k)%Z).
  { exists 6%Z. split; [lia | reflexivity]. }
  split; [exact Hk|].
  exact (proj1 (proj2 (Initialize_power_of_two (fun _ => 0) true new
                         (config_with_N 64))) Hk eq_refl).
Defined.

Lemma Initialize_invalid_state_witness :
  let result := Initialize (fun _ => 0) true new (config_with_N 100) in
  IsPowerOfTwo (N (config_with_N 100)) = false /\
  fst result = false /\
  N (config (snd result)) = 100%Z.
Proof.
  intros result.
  pose proof (proj1 (Initialize_invalid_state (fun _ => 0) true new
    (config_with_N 100) (Conformance.ocean_with Ocean.default_config)
    Ocean.default_config) eq_refl) as H.
  cbv zeta in H. destruct H as (H1 & _ & _ & _ & _ & _ & _ & H2 & _).
  split; [reflexivity|]. split; [exact H1|].
  unfold result. rewrite H2. reflexivity.
Defined.

(** A surface initialized with N = 512 and then given N = 100:
    [Initialize] fails, and afterwards the stored resolution is 100
    and the surface is no longer initialized. *)
Lemma Initialize_invalid_mutates :
  let before := snd (Initialize (fun _ => 0) true new (config_with_N 512)) in
  let result := Initialize (fun _ => 0) true before (config_with_N 100) in
  isInitialized before = true /\
  N (config before) = 512%Z /\
  fst result = false /\
  N (config (snd result)) = 100%Z /\
  isInitialized (snd result) = false /\
  config (snd result) <> config before.
Proof.
  intros before result.
  assert (Hb : isInitialized before = true /\ config before = config_with_N 512).
  { unfold before. rewrite Initialize_accept by reflexivity.
    cbv zeta. cbn [snd isInitialized set_isInitialized].
    split; [reflexivity|].
    unfold GenerateInitialSpectrum.
    match goal with |- context [for_range ?a ?b ?f ?x] =>
      destruct (for_range a b f x) as [sp r] end.
    reflexivity. }
  destruct Hb as [Hb1 Hb2].
  assert (Hr : result = (false, set_config (set_isInitialized before false)
                                  (config_with_N 100))).
  { unfold result. apply Initialize_reject. reflexivity. }
  rewrite Hr, Hb2. cbn [fst snd config set_config isInitialized set_isInitialized N
                        config_with_N].
  repeat split; try reflexivity; try exact Hb1.
  intros H. discriminate H.
Qed.

(** *** Queries before initialization *)

(** C10: on a surface whose [isInitialized] flag is clear (a new
    surface, or one whose [Initialize] failed), [SampleHeight] is 0,
    [SampleNormal] is (0, 1, 0) and [SampleDisplacement] is (0, 0),
    whatever the arguments; [SampleDisplacement] is also (0, 0)
    whenever choppiness is disabled. *)
Theorem queries_uninitialized (o : t) (x z currentTime : R) :
  (isInitialized o = false ->
   SampleHeight o x z currentTime = 0 /\
   SampleNormal o x z currentTime = Vec3 0 1 0 /\
   SampleDisplacement o x z currentTime = Vec2 0 0) /\
  (enableChoppiness (config o) = false ->
   SampleDisplacement o x z currentTime = Vec2 0 0) /\
  isInitialized new = false /\
  (forall gaussianDist shaders_load cfg,
     fst (Initialize gaussianDist shaders_load o cfg) = false ->
     isInitialized (snd (Initialize gaussianDist shaders_load o cfg)) = false).
Proof.
  split; [|split; [|split]].
  - intros H. unfold SampleHeight, SampleNormal, SampleDisplacement.
    rewrite H. cbn [negb orb]. auto.
  - intros H. unfold SampleDisplacement. rewrite H.
    cbn [negb]. rewrite orb_true_r. reflexivity.
  - reflexivity.
  - intros gd sl cfg. apply Initialize_failed_uninitialized.
Qed.

Lemma queries_uninitialized_witness :
  SampleHeight new 3 4 5 = 0 /\
  SampleNormal new 3 4 5 = Vec3 0 1 0 /\
  SampleDisplacement new 3 4 5 = Vec2 0 0.
Proof.
  exact (proj1 (queries_uninitialized new 3 4 5) eq_refl).
Defined.

(** *** The Phillips spectrum *)

Lemma length2_nonneg (k : vec2) : 0 <= length2 k.
Proof. apply sqrt_pos. Qed.

Lemma length2_zero : length2 (Vec2 0 0) = 0.
Proof.
  unfold length2, dot2. cbn [x2 y2].
  replace (0 * 0 + 0 * 0) with 0 by ring. apply sqrt_0.
Qed.

(** Below the guard the code returns zero. *)
Lemma PhillipsSpectrum_below_guard (wp : WaveParameters) (k : vec2) :
  length2 k < 0.000001 -> PhillipsSpectrum wp k = 0.
Proof.
  intros H. unfold PhillipsSpectrum.
  destruct (Rlt_dec (length2 k) 0.000001); [reflexivity | contradiction].
Qed.

(** Above the guard the code is the reference formula. *)
Lemma PhillipsSpectrum_formula (wp : WaveParameters) (k : vec2) :
  0.000001 <= length2 k ->
  PhillipsSpectrum wp k = PhillipsSpectrum_ref wp k.
Proof.
  intros Hk. unfold PhillipsSpectrum, PhillipsSpectrum_ref.
  destruct (Rlt_dec (length2 k) 0.000001) as [H|_]; [lra|].
  destruct (Req_dec_T (length2 k) 0) as [H|_]; [lra|].
  set (n := length2 k). set (w := length2 (windSpeed wp)).
  set (dw := dot2 (div2 k n) (normalize2 (windDirection wp))).
  replace (n * n * (w * w / gravity wp) * (w * w / gravity wp))
    with (n ^ 2 * (w ^ 2 / gravity wp) ^ 2) by (unfold Rdiv; ring).
  replace (- 1 / (n ^ 2 * (w ^ 2 / gravity wp) ^ 2))
    with (- (1 / (n ^ 2 * (w ^ 2 / gravity wp) ^ 2))) by (unfold Rdiv; ring).
  replace (- (n * n) * damping wp * damping wp)
    with (- (n ^ 2 * damping wp ^ 2)) by ring.
  replace (n * n * (n * n)) with (n ^ 4) by ring.
  replace (dw * dw) with (dw ^ 2) by ring.
  reflexivity.
Qed.

(** C3, as the code has it: [PhillipsSpectrum] returns exactly 0 for
    every k with |k| < 0.000001, the zero wavevector among them, so
    that nothing is divided by |k| = 0; for every k with
    |k| >= 0.000001 it returns
    A * exp(-1/(|k|^2 L^2)) / |k|^4 * (k^ . wind^)^2 * exp(-|k|^2 damping^2)
    with L = |windSpeed|^2 / gravity. *)
Theorem PhillipsSpectrum_guarded (wp : WaveParameters) (k : vec2) :
  (length2 k < 0.000001 -> PhillipsSpectrum wp k = 0) /\
  PhillipsSpectrum wp (Vec2 0 0) = 0 /\
  (0.000001 <= length2 k ->
   length2 k <> 0 /\
   PhillipsSpectrum wp k = PhillipsSpectrum_ref wp k /\
   PhillipsSpectrum wp k =
     A wp
     * exp (- (1 / (length2 k ^ 2
                    * (length2 (windSpeed wp) ^ 2 / gravity wp) ^ 2)))
     / length2 k ^ 4
     * dot2 (div2 k (length2 k)) (normalize2 (windDirection wp)) ^ 2
     * exp (- (length2 k ^ 2 * damping wp ^ 2))).
Proof.
  split; [|split].
  - apply PhillipsSpectrum_below_guard.
  - apply PhillipsSpectrum_below_guard. rewrite length2_zero. lra.
  - intros H. split; [lra|]. split; [by apply PhillipsSpectrum_formula|].
    rewrite (PhillipsSpectrum_formula wp k H). unfold PhillipsSpectrum_ref.
    destruct (Req_dec_T (length2 k) 0); [lra | reflexivity].
Qed.

Lemma PhillipsSpectrum_guarded_witness :
  let k := Vec2 3 4 in
  0.000001 <= length2 k /\
  PhillipsSpectrum default_params k = PhillipsSpectrum_ref default_params k.
Proof.
  intros k.
  assert (Hk : 0.000001 <= length2 k).
  { unfold k, length2, dot2. cbn [x2 y2].
    replace (3 * 3 + 4 * 4) with (5 * 5) by ring.
    rewrite sqrt_square; lra. }
  split; [exact Hk|].
  exact (proj1 (proj2 (proj2 (proj2 (PhillipsSpectrum_guarded default_params k)) Hk))).
Defined.

(** A wavevector of length 5e-7 under a strong wind: not zero, yet the
    code returns 0 where the reference formula is positive (about
    4e12: k^2 L^2 is about 0.05, so the exponential is about 5e-9, and
    it is divided by k^4 = 6.25e-26). *)
Lemma PhillipsSpectrum_small_k_differs :
  let k := Vec2 5e-7 0 in
  0 < length2 k /\
  PhillipsSpectrum strong_wind_params k = 0 /\
  0 < PhillipsSpectrum_ref strong_wind_params k.
Proof.
  intros k.
  assert (Hk : length2 k = 5e-7).
  { unfold k, length2, dot2. cbn [x2 y2].
    replace (5e-7 * 5e-7 + 0 * 0) with (5e-7 * 5e-7) by ring.
    rewrite sqrt_square; lra. }
  split; [rewrite Hk; lra|]. split.
  - apply PhillipsSpectrum_below_guard. rewrite Hk. lra.
  - unfold PhillipsSpectrum_ref. rewrite Hk.
    destruct (Req_dec_T 5e-7 0) as [H|_]; [lra|].
    cbn [A windSpeed windDirection damping gravity strong_wind_params].
    assert (Hs : 0 < sqrt (dot2 (Vec2 1 1) (Vec2 1 1))).
    { apply sqrt_lt_R0. unfold dot2. cbn [x2 y2]. lra. }
    assert (Hd : 0 < dot2 (div2 k 5e-7) (normalize2 (Vec2 1 1))).
    { unfold k, div2, normalize2, scale2, dot2 at 1. cbn [x2 y2].
      replace (5e-7 / 5e-7) with 1 by (field; lra).
      replace (0 / 5e-7) with 0 by (field; lra).
      rewrite Rmult_0_l, Rplus_0_r, !Rmult_1_l.
      apply Rdiv_lt_0_compat; [lra | exact Hs]. }
    apply Rmult_lt_0_compat; [|apply exp_pos].
    apply Rmult_lt_0_compat; [|apply pow_lt; exact Hd].
    apply Rdiv_lt_0_compat; [|apply pow_lt; lra].
    apply Rmult_lt_0_compat; [lra | apply exp_pos].
Qed.

(** *** The initial spectrum *)

Lemma row_major_unique (width m n m' n' : Z) :
  (0 <= n < width)%Z -> (0 <= n' < width)%Z ->
  (m * width + n = m' * width + n')%Z -> m = m' /\ n = n'.
Proof.
  intros Hn Hn' E.
  assert (m = m').
  { destruct (Z.lt_trichotomy m m') as [H|[H|H]]; [|exact H|].
    - assert (1 * width <= (m' - m) * width)%Z
        by (apply Z.mul_le_mono_nonneg_r; lia). lia.
    - assert (1 * width <= (m - m') * width)%Z
        by (apply Z.mul_le_mono_nonneg_r; lia). lia. }
  subst. lia.
Qed.

Section Spectrum.

Variable gaussianDist : nat -> R.
Variable wp : WaveParameters.
Variable cfg : OceanConfig.
Variable r0 : nat.

Hypothesis N_nonneg : (0 <= N cfg)%Z.

Lemma N_size : N cfg = Z.of_nat (Z.to_nat (N cfg)).
Proof. lia. Qed.

Lemma filled_0 (spectrum : list Complex) :
  filled gaussianDist wp cfg r0 0 spectrum.
Proof. intros m n Hm Hn H. nia. Qed.

(** One cell: the code writes the value the specification names. *)
Lemma spectrum_cell_step (m c : nat) (spectrum : list Complex) :
  (m < Z.to_nat (N cfg))%nat -> (c < Z.to_nat (N cfg))%nat ->
  length spectrum = (Z.to_nat (N cfg) * Z.to_nat (N cfg))%nat ->
  filled gaussianDist wp cfg r0 (Z.of_nat m * N cfg + Z.of_nat c) spectrum ->
  let r := (r0 + (draws_in_rows cfg m + draws_in_row cfg (Z.of_nat m) c))%nat in
  let st := spectrum_cell gaussianDist wp cfg (Z.of_nat m) (Z.of_nat c)
              (spectrum, r) in
  length (fst st) = (Z.to_nat (N cfg) * Z.to_nat (N cfg))%nat /\
  snd st = (r0 + (draws_in_rows cfg m
                  + draws_in_row cfg (Z.of_nat m) (Datatypes.S c)))%nat /\
  filled gaussianDist wp cfg r0 (Z.of_nat m * N cfg + Z.of_nat (Datatypes.S c))
    (fst st).
Proof.
  intros Hm Hc Hlen Hfill r st.
  pose proof N_size as HN.
  set (idx := Z.to_nat (Z.of_nat m * N cfg + Z.of_nat c)).
  assert (Hidx : (idx < length spectrum)%nat) by (unfold idx; nia).
  assert (Hexp : forall v rn,
    st = (<[idx := v]> spectrum, rn) ->
    v = expected_cell gaussianDist wp cfg r0 (Z.of_nat m) (Z.of_nat c) ->
    length (fst st) = (Z.to_nat (N cfg) * Z.to_nat (N cfg))%nat /\
    filled gaussianDist wp cfg r0
      (Z.of_nat m * N cfg + Z.of_nat (Datatypes.S c)) (fst st)).
  { intros v rn -> ->. cbn [fst]. split; [by rewrite length_insert|].
    intros m' n' Hm' Hn' Hlt.
    destruct (Z.eq_dec (m' * N cfg + n')%Z (Z.of_nat m * N cfg + Z.of_nat c)%Z)
      as [Heq|Hne].
    - destruct (row_major_unique (N cfg) m' n' (Z.of_nat m) (Z.of_nat c))
        as [-> ->]; [lia | lia | exact Heq |].
      fold idx. by rewrite list_lookup_insert_eq.
    - rewrite list_lookup_insert_ne by (unfold idx; nia).
      apply Hfill; lia. }
  unfold st, spectrum_cell in *. fold idx in Hexp |- *.
  change (GetWaveVector cfg (Z.of_nat c) (Z.of_nat m))
    with (wavevector cfg (Z.of_nat m) (Z.of_nat c)) in *.
  cbn [draws_in_row].
  destruct (Rlt_dec (length2 (wavevector cfg (Z.of_nat m) (Z.of_nat c))) 0.000001)
    as [Hz|Hz].
  - destruct (Hexp (mkComplex 0 0) r eq_refl) as [H1 H2].
    { unfold expected_cell.
      destruct (Rlt_dec _ 0.000001); [reflexivity | contradiction]. }
    split; [exact H1|]. split; [cbn [snd]; unfold r; lia | exact H2].
  - unfold GetGaussianRandom in *.
    match goal with |- context [<[idx := ?v]> spectrum] =>
      destruct (Hexp v (Datatypes.S (Datatypes.S r)) eq_refl) as [H1 H2] end.
    { unfold expected_cell.
      destruct (Rlt_dec _ 0.000001); [contradiction|].
      unfold draws_before. rewrite !Nat2Z.id. fold r.
      unfold Complex_mul, Complex_of_float. cbn [real imag].
      replace (PhillipsSpectrum wp (wavevector cfg (Z.of_nat m) (Z.of_nat c)) * 0.5)
        with (PhillipsSpectrum wp (wavevector cfg (Z.of_nat m) (Z.of_nat c)) / 2)
        by lra.
      f_equal; ring. }
    split; [exact H1|]. split; [cbn [snd]; unfold r; lia | exact H2].
Qed.

(** One row: the inner loop. *)
Lemma spectrum_row (m c : nat) (spectrum : list Complex) :
  (m < Z.to_nat (N cfg))%nat -> (c <= Z.to_nat (N cfg))%nat ->
  length spectrum = (Z.to_nat (N cfg) * Z.to_nat (N cfg))%nat ->
  filled gaussianDist wp cfg r0 (Z.of_nat m * N cfg) spectrum ->
  let st := for_loop c 0 (spectrum_cell gaussianDist wp cfg (Z.of_nat m))
              (spectrum, (r0 + draws_in_rows cfg m)%nat) in
  length (fst st) = (Z.to_nat (N cfg) * Z.to_nat (N cfg))%nat /\
  snd st = (r0 + (draws_in_rows cfg m + draws_in_row cfg (Z.of_nat m) c))%nat /\
  filled gaussianDist wp cfg r0 (Z.of_nat m * N cfg + Z.of_nat c) (fst st).
Proof.
  intros Hm Hc Hlen Hfill. cbv zeta. rewrite for_loop_foldl.
  induction c as [|c IH].
  - cbn [iota foldl fst snd draws_in_row].
    rewrite !Nat.add_0_r, Z.add_0_r. auto.
  - rewrite iota_snoc, foldl_app. cbn [foldl]. rewrite Z.add_0_l.
    destruct IH as (IH1 & IH2 & IH3); [lia|].
    destruct (foldl _ _ (iota c 0)) as [sp r]. cbn [fst snd] in IH1, IH2, IH3.
    subst r.
    apply (spectrum_cell_step m c sp); [exact Hm | lia | exact IH1 | exact IH3].
Qed.

(** All rows: the outer loop. *)
Lemma spectrum_rows (rows : nat) (spectrum : list Complex) :
  (rows <= Z.to_nat (N cfg))%nat ->
  length spectrum = (Z.to_nat (N cfg) * Z.to_nat (N cfg))%nat ->
  let st := for_loop rows 0
              (fun m st =>
                 for_range 0 (N cfg)
                   (fun n st => spectrum_cell gaussianDist wp cfg m n st) st)
              (spectrum, r0) in
  length (fst st) = (Z.to_nat (N cfg) * Z.to_nat (N cfg))%nat /\
  snd st = (r0 + draws_in_rows cfg rows)%nat /\
  filled gaussianDist wp cfg r0 (Z.of_nat rows * N cfg) (fst st).
Proof.
  intros Hrows Hlen. cbv zeta. rewrite for_loop_foldl.
  induction rows as [|m IH].
  - cbn [iota foldl fst snd draws_in_rows]. rewrite Nat.add_0_r.
    split; [exact Hlen|]. split; [reflexivity|]. apply filled_0.
  - rewrite iota_snoc, foldl_app. cbn [foldl]. rewrite Z.add_0_l.
    destruct IH as (IH1 & IH2 & IH3); [lia|].
    destruct (foldl _ _ (iota m 0)) as [sp r]. cbn [fst snd] in IH1, IH2, IH3.
    subst r. unfold for_range.
    replace (Z.to_nat (N cfg - 0)) with (Z.to_nat (N cfg)) by lia.
    destruct (spectrum_row m (Z.to_nat (N cfg)) sp) as (H1 & H2 & H3);
      [lia | lia | exact IH1 | exact IH3 |].
    cbv zeta in H1, H2, H3.
    match goal with |- context [for_loop (Z.to_nat (N cfg)) 0%Z ?f ?x] =>
      change (for_loop (Z.to_nat (N cfg)) 0%Z f x)
        with (for_loop (Z.to_nat (N cfg)) 0%Z (spectrum_cell gaussianDist wp cfg (Z.of_nat m)) x)
    end.
    split; [exact H1|]. split.
    + rewrite H2. cbn [draws_in_rows]. lia.
    + replace (Z.of_nat (Datatypes.S m) * N cfg)%Z
        with (Z.of_nat m * N cfg + Z.of_nat (Z.to_nat (N cfg)))%Z
        by (rewrite N_size; lia).
      exact H3.
Qed.

End Spectrum.

(** *** Every sample is a fresh pair of draws *)

Lemma draws_in_row_mono (cfg : OceanConfig) (m : Z) (c c' : nat) :
  (c <= c')%nat -> (draws_in_row cfg m c <= draws_in_row cfg m c')%nat.
Proof.
  induction 1 as [|c' _ IH]; [lia|]. cbn [draws_in_row]. lia.
Qed.

Lemma draws_in_row_fresh (cfg : OceanConfig) (m : Z) (c c' : nat) :
  (c < c')%nat ->
  ~ length2 (wavevector cfg m (Z.of_nat c)) < 0.000001 ->
  (draws_in_row cfg m c + 2 <= draws_in_row cfg m c')%nat.
Proof.
  intros Hc Hk.
  pose proof (draws_in_row_mono cfg m (Datatypes.S c) c' Hc) as H.
  cbn [draws_in_row] in H.
  destruct (Rlt_dec (length2 (wavevector cfg m (Z.of_nat c))) 0.000001);
    [contradiction | lia].
Qed.

Lemma draws_in_rows_mono (cfg : OceanConfig) (m m' : nat) :
  (m <= m')%nat -> (draws_in_rows cfg m <= draws_in_rows cfg m')%nat.
Proof.
  induction 1 as [|m' _ IH]; [lia|]. cbn [draws_in_rows]. lia.
Qed.

Lemma draws_before_fresh (cfg : OceanConfig) (m n m' n' : Z) :
  (0 <= m)%Z -> (0 <= n < N cfg)%Z -> (0 <= n' < N cfg)%Z ->
  (m * N cfg + n < m' * N cfg + n')%Z ->
  ~ length2 (wavevector cfg m n) < 0.000001 ->
  (draws_before cfg m n + 2 <= draws_before cfg m' n')%nat.
Proof.
  intros Hm Hn Hn' Hlt Hk. unfold draws_before.
  rewrite <- (Z2Nat.id n) in Hk by lia.
  destruct (Z.lt_trichotomy m m') as [H|[H|H]].
  - pose proof (draws_in_row_fresh cfg m (Z.to_nat n) (Z.to_nat (N cfg))
                  ltac:(lia) Hk) as H1.
    pose proof (draws_in_rows_mono cfg (Datatypes.S (Z.to_nat m)) (Z.to_nat m')
                  ltac:(lia)) as H2.
    cbn [draws_in_rows] in H2. rewrite Z2Nat.id in H2 by lia. lia.
  - subst m'.
    pose proof (draws_in_row_fresh cfg m (Z.to_nat n) (Z.to_nat n')
                  ltac:(lia) Hk). lia.
  - exfalso.
    assert (1 * N cfg <= (m - m') * N cfg)%Z
      by (apply Z.mul_le_mono_nonneg_r; lia). lia.
Qed.

(** C4: [GenerateInitialSpectrum] leaves an N x N spectrum in which
    every cell (n, m) is set.  With k = 2 PI (index - N/2) / oceanSize
    on each axis, the cell is complex zero when |k| < 0.000001;
    otherwise it is (xr * s, xi * s), where s = sqrt(Phillips(k) / 2)
    and xr, xi are two successive values of the normal generator, a
    pair that no other cell uses. *)
Theorem GenerateInitialSpectrum_cells (gaussianDist : nat -> R) (o : t)
    (m n m' n' : Z) :
  let cfg := config o in
  let o' := GenerateInitialSpectrum gaussianDist o in
  length (initialSpectrum o') = Z.to_nat (N cfg * N cfg) /\
  ((0 <= m < N cfg)%Z -> (0 <= n < N cfg)%Z ->
   let k := Vec2 (2 * PI * IZR (n - N cfg ÷ 2) / oceanSize cfg)
                 (2 * PI * IZR (m - N cfg ÷ 2) / oceanSize cfg) in
   initialSpectrum o' !! Z.to_nat (m * N cfg + n) =
   Some (if Rlt_dec (length2 k) 0.000001 then mkComplex 0 0
         else
           let j := (rng o + draws_before cfg m n)%nat in
           let s := sqrt (PhillipsSpectrum (waveParams o) k / 2) in
           mkComplex (gaussianDist j * s) (gaussianDist (Datatypes.S j) * s)) /\
   ((0 <= n' < N cfg)%Z -> (m * N cfg + n < m' * N cfg + n')%Z ->
    ~ length2 k < 0.000001 ->
    (draws_before cfg m n + 2 <= draws_before cfg m' n')%nat)).
Proof.
  intros cfg o'. unfold o', GenerateInitialSpectrum. fold cfg.
  set (sp0 := resize (Z.to_nat (N cfg * N cfg)) (mkComplex 0 0) (initialSpectrum o)).
  assert (Hsp0 : length sp0 = Z.to_nat (N cfg * N cfg)) by apply length_resize.
  destruct (Z_lt_le_dec (N cfg) 0) as [Hneg|Hpos].
  - unfold for_range. replace (Z.to_nat (N cfg - 0)) with 0%nat by lia.
    cbn [for_loop initialSpectrum set_spectrum]. split; [exact Hsp0 | lia].
  - match goal with |- context [for_range 0%Z (N cfg) ?f (sp0, rng o)] =>
      change (for_range 0%Z (N cfg) f (sp0, rng o))
        with (for_loop (Z.to_nat (N cfg - 0)) 0%Z f (sp0, rng o))
    end.
    pose proof (spectrum_rows gaussianDist (waveParams o) cfg (rng o) Hpos
                  (Z.to_nat (N cfg)) sp0) as H.
    cbv zeta in H.
    replace (Z.to_nat (N cfg - 0)) with (Z.to_nat (N cfg)) by lia.
    destruct H as (H1 & H2 & H3); [lia | rewrite Hsp0; nia |].
    destruct (for_loop _ _ _ _) as [sp r]. cbn [fst snd] in H1, H2, H3.
    cbn [initialSpectrum set_spectrum].
    split; [rewrite H1; nia|].
    intros Hm Hn. split; [apply (H3 m n); [lia | lia | nia]|].
    intros Hn' Hlt Hk. apply draws_before_fresh; [lia | lia | lia | lia | exact Hk].
Qed.

Lemma GenerateInitialSpectrum_cells_witness :
  let o := set_config new (config_with_N 2) in
  let o' := GenerateInitialSpectrum (fun _ => 1) o in
  (0 <= 0 < N (config o))%Z /\
  initialSpectrum o' !! 0%nat =
    Some (expected_cell (fun _ => 1) (waveParams o) (config o) (rng o) 0 0).
Proof.
  intros o o'.
  assert (H : (0 <= 0 < N (config o))%Z) by (simpl; lia).
  split; [exact H|].
  exact (proj1 (proj2 (GenerateInitialSpectrum_cells (fun _ => 1) o 0 0 1 1) H H)).
Defined.

End OceanFFTFacts.


(** * Further properties of the ocean code *)

(** ** The generated waves *)

Module WaveSetFacts.
Import Ocean Vocabulary.

Lemma lookup_GenerateWaveSet (cfg : OceanConfig) (i : nat) (w : Wave) :
  GenerateWaveSet cfg !! i = Some w ->
  (Z.of_nat i < numWaves cfg)%Z /\ w = make_wave cfg (Z.of_nat i).
Proof.
  rewrite OceanFacts.GenerateWaveSet_map. unfold range.
  intros H. apply list_lookup_fmap_Some in H as (j & -> & Hj).
  assert (Hi : (i < Z.to_nat (numWaves cfg - 0))%nat).
  { apply lookup_lt_Some in Hj. by rewrite length_iota in Hj. }
  rewrite lookup_iota in Hj by exact Hi. injection Hj as <-.
  split; [lia | f_equal; lia].
Qed.

Lemma length_GenerateWaveSet (cfg : OceanConfig) :
  length (GenerateWaveSet cfg) = Z.to_nat (numWaves cfg).
Proof.
  rewrite OceanFacts.GenerateWaveSet_map, length_map. unfold range.
  rewrite length_iota. f_equal. lia.
Qed.

(** X1: along the generated wave set the frequency strictly increases
    and the amplitude strictly decreases (for a positive base frequency
    and amplitude), and the phase strictly increases. *)
Theorem GenerateWaveSet_ordering (cfg : OceanConfig) (i j : nat) (wi wj : Wave) :
  0 < waveFrequency cfg ->
  0 < waveAmplitude cfg ->
  GenerateWaveSet cfg !! i = Some wi ->
  GenerateWaveSet cfg !! j = Some wj ->
  (i < j)%nat ->
  frequency wi < frequency wj /\
  amplitude wj < amplitude wi /\
  phase wi < phase wj.
Proof.
  intros Hf Ha Hi Hj Hij.
  apply lookup_GenerateWaveSet in Hi as [_ ->].
  apply lookup_GenerateWaveSet in Hj as [_ ->].
  assert (H0 : 0 <= IZR (Z.of_nat i)) by (apply IZR_le; lia).
  assert (H1 : IZR (Z.of_nat i) < IZR (Z.of_nat j)) by (apply IZR_lt; lia).
  cbn [frequency amplitude phase make_wave].
  split; [|split].
  - apply Rmult_lt_compat_l; lra.
  - unfold Rdiv. apply Rmult_lt_compat_l; [lra|].
    apply Rinv_lt_contravar; [|lra].
    apply Rmult_lt_0_compat; lra.
  - lra.
Qed.

Lemma GenerateWaveSet_ordering_witness :
  let w0 := make_wave default_config 0 in
  let w1 := make_wave default_config 1 in
  frequency w0 < frequency w1 /\ amplitude w1 < amplitude w0 /\ phase w0 < phase w1.
Proof.
  apply (GenerateWaveSet_ordering default_config 0 1); simpl; try lra;
    try reflexivity; lia.
Defined.

(** A unit vector mixed 30/70 with another unit vector keeps a squared
    length between 0.16 and 1. *)
Lemma mix_unit_bounds (c s ux uy : R) :
  c * c + s * s = 1 -> ux * ux + uy * uy = 1 ->
  0.16 <= dot2 (mix2 (Vec2 c s) (Vec2 ux uy) 0.7) (mix2 (Vec2 c s) (Vec2 ux uy) 0.7) <= 1.
Proof.
  intros Hd Hu. unfold mix2, add2, scale2, dot2. cbn [x2 y2].
  assert (Hp : -1 <= c * ux + s * uy <= 1).
  { pose proof (Rle_0_sqr (c + ux)). pose proof (Rle_0_sqr (s + uy)).
    pose proof (Rle_0_sqr (c - ux)). pose proof (Rle_0_sqr (s - uy)).
    unfold Rsqr in *. split; nra. }
  split; nra.
Qed.

Lemma normalize2_unit (v : vec2) :
  0 < dot2 v v ->
  x2 (normalize2 v) * x2 (normalize2 v) + y2 (normalize2 v) * y2 (normalize2 v) = 1.
Proof.
  intros Hv. unfold normalize2, scale2. cbn [x2 y2].
  set (n := dot2 v v) in *.
  assert (Hs : 0 < sqrt n) by (by apply sqrt_lt_R0).
  assert (Hn : sqrt n * sqrt n = n) by (apply sqrt_sqrt; lra).
  assert (E : x2 v * x2 v + y2 v * y2 v = n) by reflexivity.
  replace (x2 v * (1 / sqrt n) * (x2 v * (1 / sqrt n))
           + y2 v * (1 / sqrt n) * (y2 v * (1 / sqrt n)))
    with ((x2 v * x2 v + y2 v * y2 v) / (sqrt n * sqrt n)) by (field; lra).
  rewrite E, Hn. field. lra.
Qed.

(** X2: when the wind direction is not the zero vector, the direction
    stored in every generated wave has a squared length between 0.16
    and 1, so it is never the zero vector that [normalize] cannot
    handle. *)
Theorem GenerateWaveSet_direction_nonzero (cfg : OceanConfig) (w : Wave) :
  0 < dot2 (windDirection cfg) (windDirection cfg) ->
  w ∈ GenerateWaveSet cfg ->
  0.16 <= dot2 (direction w) (direction w) <= 1.
Proof.
  intros Hw Hin.
  apply OceanFacts.elem_of_GenerateWaveSet in Hin as (i & _ & ->).
  cbn [direction make_wave].
  pose proof (normalize2_unit (windDirection cfg) Hw) as Hu.
  destruct (normalize2 (windDirection cfg)) as [ux uy]. cbn [x2 y2] in Hu.
  apply mix_unit_bounds; [|exact Hu].
  pose proof (sin2_cos2 (IZR i * 0.785398)) as H. unfold Rsqr in H. lra.
Qed.

Lemma GenerateWaveSet_direction_nonzero_witness :
  let w := make_wave default_config 0 in
  0.16 <= dot2 (direction w) (direction w) <= 1.
Proof.
  apply (GenerateWaveSet_direction_nonzero default_config).
  - unfold dot2. simpl. lra.
  - apply OceanFacts.elem_of_GenerateWaveSet. exists 0%Z.
    split; [simpl; lia | reflexivity].
Defined.





End WaveSetFacts.

(** ** The vertex shaders *)

Module ShaderFacts.
Import Conformance.

Lemma take_iota (k count : nat) (i : Z) :
  take k (iota count i) = iota (Nat.min k count) i.
Proof.
  revert count i. induction k as [|k IH]; intros count i; [reflexivity|].
  destruct count as [|c]; [reflexivity|].
  cbn [take iota Nat.min]. by rewrite IH.
Qed.

(** The array [waves] of the shader holds the first eight waves of the
    host. *)
Lemma main_waves_take (o : Ocean.t) :
  ocean_vert.main_waves (uniforms_of o) =
  map to_gpu_wave (take 8 (Ocean.GenerateWaveSet (Ocean.config o))).
Proof.
  unfold ocean_vert.main_waves, for_range.
  cbn [ocean_vert.u_numWaves uniforms_of].
  rewrite for_loop_push. cbn [app].
  rewrite OceanFacts.GenerateWaveSet_map. unfold range.
  rewrite <- fmap_take, take_iota.
  replace (Nat.min 8 (Z.to_nat (Ocean.numWaves (Ocean.config o) - 0)))
    with (Z.to_nat (Z.min (Ocean.numWaves (Ocean.config o)) 8 - 0)) by lia.
  rewrite map_map. reflexivity.
Qed.

(** X4: whatever the wave count, the height ocean.vert adds to a
    vertex is the sum the host loop of [SampleWaveHeight] computes over
    the first eight waves of the generated set only: waves beyond the
    eighth are never evaluated by the shader. *)
Theorem main_height_first_eight (o : Ocean.t) (aPos : vec3) :
  y3 (fst (fst (ocean_vert.main (uniforms_of o) aPos))) =
  foldl (Ocean.height_step (Vec2 (x3 aPos) (z3 aPos)) (Ocean.time o)) 0
    (take 8 (Ocean.GenerateWaveSet (Ocean.config o))).
Proof.
  unfold ocean_vert.main, for_range. rewrite main_waves_take.
  cbn [ocean_vert.u_numWaves ocean_vert.u_time uniforms_of].
  set (ws := take 8 (Ocean.GenerateWaveSet (Ocean.config o))).
  set (n := Z.to_nat (Z.min (Ocean.numWaves (Ocean.config o)) 8 - 0)).
  assert (Hlen : length ws = n).
  { unfold ws, n. rewrite length_take, WaveSetFacts.length_GenerateWaveSet. lia. }
  set (F := fun (w : ocean_vert.Wave) (st : vec3 * vec3 * vec3) =>
       let '(totalDisplacement, tangent, binormal) := st in
       let '(disp, tangent', binormal') :=
         ocean_vert.GerstnerWave (uniforms_of o) (Vec2 (x3 aPos) (z3 aPos)) w
           (Ocean.time o) tangent binormal in
       (add3 totalDisplacement disp, tangent', binormal')).
  transitivity (y3 (fst (fst (foldl (fun st w => F w st)
    (Vec3 0 0 0, Vec3 1 0 0, Vec3 0 0 1)
    (take n (drop 0 (map to_gpu_wave ws))))))).
  { do 3 f_equal.
    rewrite <- (ConformanceFacts.for_loop_lookup F (map to_gpu_wave ws) n 0)
      by (rewrite length_map; lia).
    apply for_loop_ext. intros j [[D T] B]. reflexivity. }
  rewrite drop_0, take_ge by (rewrite length_map; lia).
  unfold F. apply ConformanceFacts.shader_fold_height.
Qed.

(** X5: the shader [Ocean::Initialize] loads moves a vertex only
    vertically, by at most 0.15 times the absolute wave amplitude. *)
Theorem simple_shader_displacement_bound (u : ocean_simple_vert.Uniforms) (aPos : vec3) :
  let d := ocean_simple_vert.main_displacement u aPos in
  x3 d = 0 /\ z3 d = 0 /\
  Rabs (y3 d) <= 0.15 * Rabs (ocean_simple_vert.u_waveAmplitude u).
Proof.
  unfold ocean_simple_vert.main_displacement, ocean_simple_vert.main_worldPos.
  cbn [x3 y3 z3 add3 scale3].
  set (A := ocean_simple_vert.u_waveAmplitude u).
  set (s := sin _). set (c := cos _).
  split; [ring|]. split; [ring|].
  replace (y3 aPos + s * A * 0.1 + c * A * 0.05 + y3 aPos * -1)
    with (A * (s * 0.1 + c * 0.05)) by ring.
  rewrite Rabs_mult.
  assert (Hs : -1 <= s <= 1) by apply SIN_bound.
  assert (Hc : -1 <= c <= 1) by apply COS_bound.
  assert (Rabs (s * 0.1 + c * 0.05) <= 0.15) by (apply Rabs_le; lra).
  pose proof (Rabs_pos A). nra.
Qed.

End ShaderFacts.

(** ** Normals by finite differences *)

Module NormalFacts.
Import Conformance.

Lemma normalize3_unit (v : vec3) :
  0 < dot3 v v -> dot3 (normalize3 v) (normalize3 v) = 1.
Proof.
  intros Hv. unfold normalize3, scale3. unfold dot3 at 1. cbn [x3 y3 z3].
  set (n := dot3 v v) in *.
  assert (Hs : 0 < sqrt n) by (by apply sqrt_lt_R0).
  assert (Hn : sqrt n * sqrt n = n) by (apply sqrt_sqrt; lra).
  assert (E : x3 v * x3 v + y3 v * y3 v + z3 v * z3 v = n) by reflexivity.
  replace (x3 v * (1 / sqrt n) * (x3 v * (1 / sqrt n))
           + y3 v * (1 / sqrt n) * (y3 v * (1 / sqrt n))
           + z3 v * (1 / sqrt n) * (z3 v * (1 / sqrt n)))
    with ((x3 v * x3 v + y3 v * y3 v + z3 v * z3 v) / (sqrt n * sqrt n))
    by (field; lra).
  rewrite E, Hn. field. lra.
Qed.

(** The normal built from the two height differences [a] (along x) and
    [b] (along z) with the step 0.1. *)
Lemma finite_difference_normal (a b : R) :
  let n := normalize3 (cross (normalize3 (Vec3 0 b 0.1)) (normalize3 (Vec3 0.1 a 0))) in
  dot3 n n = 1 /\ 0 < y3 n /\ (a = 0 -> b = 0 -> n = Vec3 0 1 0).
Proof.
  set (p := 1 / sqrt (dot3 (Vec3 0.1 a 0) (Vec3 0.1 a 0))).
  set (q := 1 / sqrt (dot3 (Vec3 0 b 0.1) (Vec3 0 b 0.1))).
  assert (Ha : 0 <= a * a) by apply Rle_0_sqr.
  assert (Hb : 0 <= b * b) by apply Rle_0_sqr.
  assert (Hp : 0 < p).
  { unfold p. apply Rdiv_lt_0_compat; [lra|]. apply sqrt_lt_R0.
    unfold dot3. cbn [x3 y3 z3]. lra. }
  assert (Hq : 0 < q).
  { unfold q. apply Rdiv_lt_0_compat; [lra|]. apply sqrt_lt_R0.
    unfold dot3. cbn [x3 y3 z3]. lra. }
  set (v := cross (normalize3 (Vec3 0 b 0.1)) (normalize3 (Vec3 0.1 a 0))).
  assert (Hy : y3 v = 0.1 * q * (0.1 * p)).
  { unfold v, cross, normalize3, scale3. cbn [x3 y3 z3]. fold p q. ring. }
  assert (Hy0 : 0 < y3 v).
  { rewrite Hy. apply Rmult_lt_0_compat; apply Rmult_lt_0_compat; lra. }
  assert (Hv : 0 < dot3 v v).
  { unfold dot3. pose proof (Rle_0_sqr (x3 v)). pose proof (Rle_0_sqr (z3 v)).
    unfold Rsqr in *. assert (0 < y3 v * y3 v); [|lra].
    by apply Rmult_lt_0_compat. }
  assert (Hs : 0 < sqrt (dot3 v v)) by (by apply sqrt_lt_R0).
  intros n. split; [by apply normalize3_unit|]. split.
  - unfold n, normalize3 at 1, scale3. cbn [y3].
    apply Rmult_lt_0_compat; [exact Hy0 | apply Rdiv_lt_0_compat; lra].
  - intros -> ->.
    assert (Hp1 : p = 10).
    { unfold p, dot3. cbn [x3 y3 z3].
      replace (0.1 * 0.1 + 0 * 0 + 0 * 0) with (0.1 * 0.1) by ring.
      rewrite sqrt_square by lra. lra. }
    assert (Hq1 : q = 10).
    { unfold q, dot3. cbn [x3 y3 z3].
      replace (0 * 0 + 0 * 0 + 0.1 * 0.1) with (0.1 * 0.1) by ring.
      rewrite sqrt_square by lra. lra. }
    assert (Ev : v = Vec3 0 1 0).
    { unfold v, cross, normalize3, scale3. cbn [x3 y3 z3]. fold p q.
      rewrite Hp1, Hq1. f_equal; lra. }
    unfold n. fold v. rewrite Ev. unfold normalize3, scale3, dot3. cbn [x3 y3 z3].
    replace (0 * 0 + 1 * 1 + 0 * 0) with 1 by ring. rewrite sqrt_1.
    f_equal; lra.
Qed.



(** X7: the normal [OceanFFT::SampleNormal] returns is a unit vector
    whose y component is positive, on every surface (initialized or
    not), at every position and time. *)
Theorem SampleNormal_unit_up (o : OceanFFT.t) (x z currentTime : R) :
  let n := OceanFFT.SampleNormal o x z currentTime in
  dot3 n n = 1 /\ 0 < y3 n.
Proof.
  unfold OceanFFT.SampleNormal.
  destruct (negb (OceanFFT.isInitialized o)).
  - unfold dot3. cbn [x3 y3 z3]. split; lra.
  - set (h0 := OceanFFT.SampleHeight o x z currentTime).
    set (hx := OceanFFT.SampleHeight o (x + 0.1) z currentTime).
    set (hz := OceanFFT.SampleHeight o x (z + 0.1) currentTime).
    destruct (finite_difference_normal (hx - h0) (hz - h0)) as (H1 & H2 & _).
    split; [exact H1 | exact H2].
Qed.

End NormalFacts.

(** ** The grid mesh: what the streams contain *)

Module GridFacts.
Import Ocean GridLayout.

Lemma elem_of_flat_map {X Y : Type} (f : X -> list Y) (l : list X) (y : Y) :
  y ∈ flat_map f l <-> exists x, x ∈ l /\ y ∈ f x.
Proof.
  rewrite list_elem_of_In, in_flat_map. split; intros (x & H1 & H2); exists x.
  - by rewrite !list_elem_of_In.
  - by rewrite <- !list_elem_of_In.
Qed.

Lemma elem_of_grid {Y : Type} (f : Z -> Z -> Y) (lo hi : Z) (y : Y) :
  y ∈ flat_map (fun z => map (f z) (range lo hi)) (range lo hi) ->
  exists z x, (lo <= z < hi)%Z /\ (lo <= x < hi)%Z /\ y = f z x.
Proof.
  intros H. apply elem_of_flat_map in H as (z & Hz & H).
  apply list_elem_of_fmap in H as (x & -> & Hx).
  exists z, x. by rewrite <- !elem_of_range.
Qed.

(** X8: every index [GenerateMesh] emits refers to a vertex it has
    generated: it lies between 0 and the number of vertices. *)
Theorem GenerateMesh_indices_in_range (o : t) (i : Z) :
  i ∈ indices (GenerateMesh o) ->
  (0 <= i < Z.of_nat (length (vertices (GenerateMesh o))))%Z.
Proof.
  rewrite MeshFacts.GenerateMesh_closed. cbv zeta. cbn [indices vertices].
  set (R := resolution (config o)).
  intros H. apply elem_of_flat_map in H as (z & Hz & H).
  apply elem_of_flat_map in H as (x & Hx & H).
  apply elem_of_range in Hz, Hx.
  unfold range.
  rewrite (MeshFacts.length_flat_map_rows _ (Z.to_nat (R + 1 - 0)))
    by (intros; by rewrite length_map, length_iota).
  unfold cell_indices in H. fold R in H.
  rewrite !elem_of_cons, elem_of_nil in H.
  assert (z * (R + 1) <= (R - 1) * (R + 1))%Z by nia.
  assert (0 <= z * (R + 1))%Z by nia.
  assert (Z.of_nat (Z.to_nat (R + 1 - 0) * Z.to_nat (R + 1 - 0)) = (R + 1) * (R + 1))%Z
    by nia.
  destruct H as [->|[->|[->|[->|[->|[->|[]]]]]]]; nia.
Qed.

Lemma GenerateMesh_indices_in_range_witness :
  (0 <= 6 < Z.of_nat (length (vertices (GenerateMesh stale_ocean))))%Z.
Proof.
  apply (GenerateMesh_indices_in_range stale_ocean 6).
  rewrite MeshFacts.GenerateMesh_closed. cbv zeta. cbn [indices].
  apply elem_of_flat_map. exists 0%Z. split; [by apply elem_of_range|].
  apply elem_of_flat_map. exists 1%Z. split; [by apply elem_of_range|].
  unfold cell_indices. cbn. rewrite !elem_of_cons. auto.
Defined.

(** X9: for a positive resolution and a non-negative size, every
    vertex [GenerateMesh] emits lies in the plane y = 0 inside the
    square of side [size] centred at the origin, every normal is
    (0, 1, 0) and every texture coordinate lies in the unit square. *)
Theorem GenerateMesh_streams_in_bounds (o : t) :
  (0 < resolution (config o))%Z ->
  0 <= size (config o) ->
  let m := GenerateMesh o in
  let half := size (config o) / 2 in
  (forall v, v ∈ vertices m ->
     - half <= x3 v <= half /\ y3 v = 0 /\ - half <= z3 v <= half) /\
  (forall n, n ∈ normals m -> n = Vec3 0 1 0) /\
  (forall uv, uv ∈ texCoords m -> 0 <= x2 uv <= 1 /\ 0 <= y2 uv <= 1).
Proof.
  intros HR Hs. rewrite MeshFacts.GenerateMesh_closed. cbv zeta.
  cbn [vertices normals texCoords].
  set (R := resolution (config o)) in *. set (sz := size (config o)) in *.
  assert (HRr : 0 < IZR R) by (by apply IZR_lt).
  assert (Hfrac : forall x, (0 <= x < R + 1)%Z -> 0 <= IZR x / IZR R <= 1).
  { intros x Hx. assert (0 <= IZR x <= IZR R) by (split; apply IZR_le; lia).
    split.
    - apply Rmult_le_pos; [lra|]. left. by apply Rinv_0_lt_compat.
    - apply (Rmult_le_reg_r (IZR R)); [lra|].
      unfold Rdiv. rewrite Rmult_assoc, Rinv_l by lra. lra. }
  assert (Hpos : forall x, (0 <= x < R + 1)%Z ->
            - (sz / 2) <= - (sz * 0.5) + IZR x * (sz / IZR R) <= sz / 2).
  { intros x Hx. destruct (Hfrac x Hx) as [H0 H1].
    replace (IZR x * (sz / IZR R)) with (sz * (IZR x / IZR R)) by (field; lra).
    split; nra. }
  split; [|split].
  - intros v Hv. apply elem_of_grid in Hv as (z & x & Hz & Hx & ->).
    unfold grid_position. fold R sz. cbn [x3 y3 z3].
    split; [by apply Hpos|]. split; [reflexivity | by apply Hpos].
  - intros n Hn. by apply elem_of_grid in Hn as (z & x & _ & _ & ->).
  - intros uv Huv. apply elem_of_grid in Huv as (z & x & Hz & Hx & ->).
    unfold grid_uv. fold R. cbn [x2 y2]. split; by apply Hfrac.
Qed.

Lemma GenerateMesh_streams_in_bounds_witness :
  (0 < resolution (config stale_ocean))%Z /\
  0 <= size (config stale_ocean) /\
  (forall n, n ∈ normals (GenerateMesh stale_ocean) -> n = Vec3 0 1 0).
Proof.
  assert (H1 : (0 < resolution (config stale_ocean))%Z) by (simpl; lia).
  assert (H2 : 0 <= size (config stale_ocean)) by (simpl; lra).
  split; [exact H1|]. split; [exact H2|].
  exact (proj1 (proj2 (GenerateMesh_streams_in_bounds stale_ocean H1 H2))).
Defined.

End GridFacts.

(** ** The spectral ocean: geometry, initialization, setters *)

Module SpectralFacts.
Import OceanFFT OceanFFTSpec.

Lemma CreateGeometry_closed (o : t) :
  let n := N (config o) in
  let halfSize := oceanSize (config o) * 0.5 in
  let step := oceanSize (config o) / IZR (n - 1) in
  CreateGeometry o =
  (true,
   set_geometry o
     (flat_map (fun z => flat_map (fun x =>
        [- halfSize + IZR x * step; 0; - halfSize + IZR z * step;
         IZR x / IZR (n - 1); IZR z / IZR (n - 1)]) (range 0 n)) (range 0 n))
     (flat_map (fun z => flat_map (fun x =>
        [(z * n + x)%Z; ((z + 1) * n + x)%Z; (z * n + x + 1)%Z;
         (z * n + x + 1)%Z; ((z + 1) * n + x)%Z; ((z + 1) * n + x + 1)%Z])
        (range 0 (n - 1))) (range 0 (n - 1)))).
Proof.
  intros n halfSize step. unfold CreateGeometry, for_range, range. fold n halfSize step.
  f_equal. f_equal.
  - apply (MeshFacts.for_loop_append_rows (fun z x =>
      [- halfSize + IZR x * step; 0; - halfSize + IZR z * step;
       IZR x / IZR (n - 1); IZR z / IZR (n - 1)])).
  - apply (MeshFacts.for_loop_append_rows (fun z x =>
      [(z * n + x)%Z; ((z + 1) * n + x)%Z; (z * n + x + 1)%Z;
       (z * n + x + 1)%Z; ((z + 1) * n + x)%Z; ((z + 1) * n + x + 1)%Z])).
Qed.

Lemma CreateGeometry_post (o : t) (i : Z) :
  (1 <= N (config o))%Z ->
  let n := N (config o) in
  let g := snd (CreateGeometry o) in
  fst (CreateGeometry o) = true /\
  length (vertices g) = (5 * Z.to_nat (n * n))%nat /\
  length (indices g) = (6 * Z.to_nat ((n - 1) * (n - 1)))%nat /\
  (i ∈ indices g -> (0 <= i < n * n)%Z).
Proof.
  intros HN n g. unfold g. rewrite CreateGeometry_closed. cbv zeta.
  cbn [fst snd vertices indices set_geometry]. fold n. unfold range.
  split; [reflexivity|]. split; [|split].
  - rewrite (MeshFacts.length_flat_map_rows _ (Z.to_nat (n - 0) * 5))
      by (intros; by apply MeshFacts.length_flat_map_rows).
    nia.
  - rewrite (MeshFacts.length_flat_map_rows _ (Z.to_nat (n - 1 - 0) * 6))
      by (intros; by apply MeshFacts.length_flat_map_rows).
    nia.
  - intros H. apply GridFacts.elem_of_flat_map in H as (z & Hz & H).
    apply GridFacts.elem_of_flat_map in H as (x & Hx & H).
    apply elem_of_iota in Hz, Hx.
    rewrite !elem_of_cons, elem_of_nil in H.
    assert (0 <= z * n)%Z by nia.
    assert (z * n <= (n - 2) * n)%Z by nia.
    destruct H as [->|[->|[->|[->|[->|[->|[]]]]]]]; nia.
Qed.

(** X10: for N >= 1, [CreateGeometry] succeeds and leaves 5 floats for
    each of the N*N vertices and 6 indices for each of the (N-1)^2
    cells, and every index refers to one of the N*N vertices. *)
Theorem CreateGeometry_counts (o : t) (i : Z) :
  (1 <= N (config o))%Z ->
  let n := N (config o) in
  let g := snd (CreateGeometry o) in
  fst (CreateGeometry o) = true /\
  length (vertices g) = (5 * Z.to_nat (n * n))%nat /\
  length (indices g) = (6 * Z.to_nat ((n - 1) * (n - 1)))%nat /\
  (i ∈ indices g -> (0 <= i < n * n)%Z).
Proof. exact (CreateGeometry_post o i). Qed.

Lemma CreateGeometry_counts_witness :
  let o := set_config new (config_with_N 4) in
  length (vertices (snd (CreateGeometry o))) = 80%nat /\
  length (indices (snd (CreateGeometry o))) = 54%nat.
Proof.
  intros o.
  pose proof (CreateGeometry_counts o 0 ltac:(simpl; lia)) as H.
  cbv zeta in H. destruct H as (_ & H1 & H2 & _).
  split; [exact H1 | exact H2].
Defined.

(** What [GenerateInitialSpectrum] leaves behind. *)
Lemma GenerateInitialSpectrum_post (gaussianDist : nat -> R) (o : t) :
  let cfg := config o in
  let o' := GenerateInitialSpectrum gaussianDist o in
  waveParams o' = waveParams o /\ config o' = cfg /\
  vertices o' = vertices o /\ indices o' = indices o /\
  time o' = time o /\ isInitialized o' = isInitialized o /\
  length (initialSpectrum o') = Z.to_nat (N cfg * N cfg) /\
  rng o' = (rng o + draws_in_rows cfg (Z.to_nat (N cfg)))%nat /\
  filled gaussianDist (waveParams o) cfg (rng o) (N cfg * N cfg) (initialSpectrum o').
Proof.
  intros cfg o'. unfold o', GenerateInitialSpectrum. fold cfg.
  set (sp0 := resize (Z.to_nat (N cfg * N cfg)) (mkComplex 0 0) (initialSpectrum o)).
  assert (Hsp0 : length sp0 = Z.to_nat (N cfg * N cfg)) by apply length_resize.
  destruct (Z_lt_le_dec (N cfg) 0) as [Hneg|Hpos].
  - unfold for_range. replace (Z.to_nat (N cfg - 0)) with 0%nat by lia.
    replace (Z.to_nat (N cfg)) with 0%nat by lia.
    cbn. rewrite Nat.add_0_r. repeat split; try reflexivity; try exact Hsp0.
    intros m n Hm Hn. lia.
  - match goal with |- context [for_range 0%Z (N cfg) ?f (sp0, rng o)] =>
      change (for_range 0%Z (N cfg) f (sp0, rng o))
        with (for_loop (Z.to_nat (N cfg - 0)) 0%Z f (sp0, rng o))
    end.
    pose proof (OceanFFTFacts.spectrum_rows gaussianDist (waveParams o) cfg (rng o)
                  Hpos (Z.to_nat (N cfg)) sp0) as H.
    cbv zeta in H.
    replace (Z.to_nat (N cfg - 0)) with (Z.to_nat (N cfg)) by lia.
    destruct H as (H1 & H2 & H3); [lia | rewrite Hsp0; nia |].
    destruct (for_loop _ _ _ _) as [sp r]. cbn [fst snd] in H1, H2, H3.
    cbn. repeat split; try reflexivity; try exact H2.
    + rewrite H1. nia.
    + rewrite Z2Nat.id in H3 by lia. exact H3.
Qed.

(** X11: a successful [Initialize] (N a power of two, shaders loaded)
    leaves the surface initialized with the new configuration, a
    spectrum of N*N cells and the geometry of N*N vertices; it does not
    reset the clock or the wave parameters, and the generator is not
    reseeded: it has moved on by two values for every cell that is not
    zeroed. *)
Theorem Initialize_success_state (gaussianDist : nat -> R) (o : t) (cfg : OceanConfig) :
  IsPowerOfTwo (N cfg) = true ->
  let result := Initialize gaussianDist true o cfg in
  fst result = true /\
  isInitialized (snd result) = true /\
  config (snd result) = cfg /\
  length (initialSpectrum (snd result)) = Z.to_nat (N cfg * N cfg) /\
  length (vertices (snd result)) = (5 * Z.to_nat (N cfg * N cfg))%nat /\
  time (snd result) = time o /\
  waveParams (snd result) = waveParams o /\
  rng (snd result) = (rng o + draws_in_rows cfg (Z.to_nat (N cfg)))%nat.
Proof.
  intros HN result. unfold result.
  rewrite (OceanFFTFacts.Initialize_accept gaussianDist true o cfg HN). cbv zeta.
  set (o1 := set_config (set_isInitialized o false) cfg).
  assert (HN1 : (1 <= N (config o1))%Z).
  { cbn. apply OceanFFTFacts.IsPowerOfTwo_spec in HN as (k & Hk & ->).
    pose proof (Z.pow_pos_nonneg 2 k). lia. }
  pose proof (CreateGeometry_post o1 0 HN1) as Hg. cbv zeta in Hg.
  destruct Hg as (_ & Hg & _).
  assert (Hframe : waveParams (snd (CreateGeometry o1)) = waveParams o /\
                   config (snd (CreateGeometry o1)) = cfg /\
                   time (snd (CreateGeometry o1)) = time o /\
                   rng (snd (CreateGeometry o1)) = rng o).
  { rewrite CreateGeometry_closed. cbn. auto. }
  destruct Hframe as (F1 & F2 & F3 & F4).
  pose proof (GenerateInitialSpectrum_post gaussianDist (snd (CreateGeometry o1))) as H.
  cbv zeta in H. rewrite F1, F2, F3, F4 in H.
  destruct H as (P1 & P2 & P3 & _ & P5 & _ & P7 & P8 & _).
  cbn [fst snd isInitialized config initialSpectrum vertices time waveParams rng
       set_isInitialized].
  rewrite P1, P2, P3, P5, P7, P8. cbn [N config set_config] in Hg.
  repeat split; try reflexivity. exact Hg.
Qed.

Lemma Initialize_success_state_witness :
  let result := Initialize (fun _ => 0) true new (config_with_N 64) in
  IsPowerOfTwo (N (config_with_N 64)) = true /\
  isInitialized (snd result) = true /\
  length (initialSpectrum (snd result)) = 4096%nat.
Proof.
  intros result.
  pose proof (Initialize_success_state (fun _ => 0) new (config_with_N 64) eq_refl) as H.
  cbv zeta in H. destruct H as (_ & H1 & _ & H2 & _).
  split; [reflexivity|]. split; [exact H1 | exact H2].
Defined.

(** X12: [SetOceanConfig] only stores the configuration: whatever the
    new resolution, it never rebuilds the geometry or the spectrum and
    never draws from the generator, so that a surface initialized with
    one resolution and then given another keeps a spectrum and a grid
    of the old size. *)
Theorem SetOceanConfig_only_stores (gaussianDist : nat -> R) (shaders_load : bool)
    (o : t) (cfg : OceanConfig) :
  let o' := SetOceanConfig gaussianDist shaders_load o cfg in
  config o' = cfg /\
  initialSpectrum o' = initialSpectrum o /\
  vertices o' = vertices o /\ indices o' = indices o /\
  isInitialized o' = isInitialized o /\
  rng o' = rng o /\ time o' = time o /\ waveParams o' = waveParams o.
Proof.
  unfold SetOceanConfig. cbn [isInitialized config set_config].
  rewrite Z.eqb_refl. cbn [negb].
  destruct (isInitialized o) eqn:E; cbn; rewrite ?E; repeat split; reflexivity.
Qed.

(** X13: on an uninitialized surface [SetWaveParameters] only stores
    the parameters; on an initialized one it regenerates the whole
    spectrum from them, drawing fresh values from where the generator
    stands (it is not reseeded), and changes nothing else. *)
Theorem SetWaveParameters_regenerates (gaussianDist : nat -> R) (o : t)
    (params : WaveParameters) (m n : Z) :
  let o' := SetWaveParameters gaussianDist o params in
  (isInitialized o = false -> o' = set_waveParams o params) /\
  (isInitialized o = true ->
   waveParams o' = params /\ config o' = config o /\
   isInitialized o' = true /\ time o' = time o /\
   vertices o' = vertices o /\ indices o' = indices o /\
   length (initialSpectrum o') = Z.to_nat (N (config o) * N (config o)) /\
   rng o' = (rng o + draws_in_rows (config o) (Z.to_nat (N (config o))))%nat /\
   ((0 <= m < N (config o))%Z -> (0 <= n < N (config o))%Z ->
    initialSpectrum o' !! Z.to_nat (m * N (config o) + n) =
    Some (expected_cell gaussianDist params (config o) (rng o) m n))).
Proof.
  intros o'. unfold o', SetWaveParameters. cbn [isInitialized set_waveParams].
  split; intros Hi; rewrite Hi; [reflexivity|].
  pose proof (GenerateInitialSpectrum_post gaussianDist (set_waveParams o params)) as H.
  cbv zeta in H. cbn [waveParams config vertices indices time isInitialized rng
                      set_waveParams] in H.
  destruct H as (P1 & P2 & P3 & P4 & P5 & P6 & P7 & P8 & P9).
  rewrite P1, P2, P3, P4, P5, P6, P7, P8.
  repeat split; try reflexivity; try exact Hi.
  intros Hm Hn. apply (P9 m n); [lia | lia | nia].
Qed.

Lemma SetWaveParameters_regenerates_witness :
  let o := set_isInitialized (set_config new (config_with_N 2)) true in
  let o' := SetWaveParameters (fun _ => 1) o strong_wind_params in
  isInitialized o = true /\
  waveParams o' = strong_wind_params /\
  length (initialSpectrum o') = 4%nat.
Proof.
  intros o o'.
  pose proof (proj2 (SetWaveParameters_regenerates (fun _ => 1) o strong_wind_params 0 0)
                eq_refl) as H.
  destruct H as (H1 & _ & _ & _ & _ & _ & H2 & _).
  split; [reflexivity|]. split; [exact H1 | exact H2].
Defined.

End SpectralFacts.

(** ** How many values the initial spectrum draws *)

Module SpectrumCountFacts.
Import OceanFFT OceanFFTSpec.

Section Count.

Variable cfg : OceanConfig.
Hypothesis size_pos : 0 < oceanSize cfg.
Hypothesis size_le : oceanSize cfg <= 1000000.

Lemma axis_zero (d : Z) : d = 0%Z -> 2 * PI * IZR d / oceanSize cfg = 0.
Proof. intros ->. unfold Rdiv. ring. Qed.

Lemma axis_far (d : Z) :
  d <> 0%Z ->
  0.000001 * 0.000001
  <= (2 * PI * IZR d / oceanSize cfg) * (2 * PI * IZR d / oceanSize cfg).
Proof.
  intros Hd.
  assert (H1 : 1 <= IZR d * IZR d).
  { destruct (Z_lt_le_dec d 0) as [H|H].
    - assert (IZR d <= -1) by (apply IZR_le; lia). nra.
    - assert (1 <= IZR d) by (apply IZR_le; lia). nra. }
  set (S := oceanSize cfg) in *.
  set (u := IZR d / S).
  assert (Hu : u * S = IZR d) by (unfold u; field; lra).
  assert (Hu2 : 0.000001 * 0.000001 <= u * u).
  { destruct (Rle_lt_dec (0.000001 * 0.000001) (u * u)) as [H|H]; [exact H|].
    exfalso.
    assert (HS : S * S <= 1000000 * 1000000) by nra.
    assert (Huu : 0 <= u * u) by apply Rle_0_sqr.
    assert ((u * S) * (u * S) < 1); [|rewrite Hu in *; lra].
    replace (u * S * (u * S)) with (u * u * (S * S)) by ring.
    assert (u * u * (S * S) <= u * u * (1000000 * 1000000))
      by (apply Rmult_le_compat_l; lra).
    lra. }
  replace (2 * PI * IZR d / S) with (2 * PI * u) by (unfold u; field; lra).
  unfold PI. nra.
Qed.

(** With an ocean of at most a million units, the guard of the
    spectrum fires at the centre cell and nowhere else. *)
Lemma guard_iff_centre (m n : Z) :
  length2 (wavevector cfg m n) < 0.000001 <->
  n = (N cfg ÷ 2)%Z /\ m = (N cfg ÷ 2)%Z.
Proof.
  unfold wavevector, length2, dot2. cbn [x2 y2].
  set (c := (N cfg ÷ 2)%Z).
  set (kx := 2 * PI * IZR (n - c) / oceanSize cfg).
  set (kz := 2 * PI * IZR (m - c) / oceanSize cfg).
  assert (Hx : 0 <= kx * kx) by apply Rle_0_sqr.
  assert (Hz : 0 <= kz * kz) by apply Rle_0_sqr.
  split.
  - intros H.
    assert (Hsq : kx * kx + kz * kz < 0.000001 * 0.000001).
    { rewrite <- (sqrt_sqrt (kx * kx + kz * kz)) by lra.
      pose proof (sqrt_pos (kx * kx + kz * kz)). nra. }
    split.
    + destruct (Z.eq_dec (n - c)%Z 0%Z) as [E|E]; [lia|].
      pose proof (axis_far (n - c) E). fold kx in H0. lra.
    + destruct (Z.eq_dec (m - c)%Z 0%Z) as [E|E]; [lia|].
      pose proof (axis_far (m - c) E). fold kz in H0. lra.
  - intros [-> ->]. unfold kx, kz.
    rewrite (axis_zero (c - c)) by lia.
    replace (0 * 0 + 0 * 0) with 0 by ring. rewrite sqrt_0. lra.
Qed.

Lemma draws_in_row_count (m : Z) (n : nat) :
  draws_in_row cfg m n =
  if ((m =? N cfg ÷ 2) && (N cfg ÷ 2 <? Z.of_nat n) && (0 <=? N cfg ÷ 2))%Z
  then (2 * n - 2)%nat else (2 * n)%nat.
Proof.
  induction n as [|n IH].
  - cbn [draws_in_row].
    destruct (m =? N cfg ÷ 2)%Z, (N cfg ÷ 2 <? Z.of_nat 0)%Z eqn:E1,
             (0 <=? N cfg ÷ 2)%Z eqn:E2; cbn; try reflexivity; lia.
  - cbn [draws_in_row]. rewrite IH.
    destruct (Rlt_dec (length2 (wavevector cfg m (Z.of_nat n))) 0.000001) as [H|H].
    + apply guard_iff_centre in H as [H1 ->]. rewrite Z.eqb_refl.
      rewrite <- H1.
      replace (Z.of_nat n <? Z.of_nat n)%Z with false by (symmetry; apply Z.ltb_ge; lia).
      replace (Z.of_nat n <? Z.of_nat (Datatypes.S n))%Z with true
        by (symmetry; apply Z.ltb_lt; lia).
      replace (0 <=? Z.of_nat n)%Z with true by (symmetry; apply Z.leb_le; lia).
      cbn. lia.
    + assert (Hne : ~ (Z.of_nat n = N cfg ÷ 2 /\ m = N cfg ÷ 2)%Z)
        by (intros Hc; apply H; by apply guard_iff_centre).
      destruct (Z.eqb_spec m (N cfg ÷ 2)), (Z.ltb_spec (N cfg ÷ 2) (Z.of_nat n)),
               (Z.ltb_spec (N cfg ÷ 2) (Z.of_nat (Datatypes.S n))),
               (Z.leb_spec 0 (N cfg ÷ 2)); cbn; lia.
Qed.

Lemma draws_in_rows_count (rows : nat) :
  (1 <= N cfg)%Z ->
  draws_in_rows cfg rows =
  if (N cfg ÷ 2 <? Z.of_nat rows)%Z
  then (2 * (rows * Z.to_nat (N cfg)) - 2)%nat
  else (2 * (rows * Z.to_nat (N cfg)))%nat.
Proof.
  intros HN.
  assert (Hc : (0 <= N cfg ÷ 2 < N cfg)%Z).
  { rewrite Z.quot_div_nonneg by lia. split.
    - apply Z.div_pos; lia.
    - apply Z.div_lt_upper_bound; lia. }
  induction rows as [|r IH].
  - cbn [draws_in_rows].
    destruct (Z.ltb_spec (N cfg ÷ 2) (Z.of_nat 0)); lia.
  - cbn [draws_in_rows]. rewrite IH, draws_in_row_count.
    rewrite Z2Nat.id by lia.
    destruct (Z.eqb_spec (Z.of_nat r) (N cfg ÷ 2)), (Z.ltb_spec (N cfg ÷ 2) (N cfg)),
             (Z.ltb_spec (N cfg ÷ 2) (Z.of_nat r)),
             (Z.ltb_spec (N cfg ÷ 2) (Z.of_nat (Datatypes.S r))),
             (Z.leb_spec 0 (N cfg ÷ 2)); cbn [andb]; nia.
Qed.

End Count.

(** X14: for N >= 1 and an ocean size in (0, 1000000], the guard of
    [GenerateInitialSpectrum] fires at the centre cell (N/2, N/2) and
    nowhere else: that cell is complex zero and the generator has
    handed out exactly 2 * (N*N - 1) values when the function returns. *)
Theorem GenerateInitialSpectrum_single_zero (gaussianDist : nat -> R) (o : t) (m n : Z) :
  let cfg := config o in
  let c := (N cfg ÷ 2)%Z in
  (1 <= N cfg)%Z ->
  0 < oceanSize cfg ->
  oceanSize cfg <= 1000000 ->
  let o' := GenerateInitialSpectrum gaussianDist o in
  (length2 (GetWaveVector cfg n m) < 0.000001 <-> n = c /\ m = c) /\
  initialSpectrum o' !! Z.to_nat (c * N cfg + c) = Some (mkComplex 0 0) /\
  rng o' = (rng o + 2 * (Z.to_nat (N cfg * N cfg) - 1))%nat.
Proof.
  intros cfg c HN Hs0 Hs1 o'.
  assert (Hc : (0 <= c < N cfg)%Z).
  { unfold c. rewrite Z.quot_div_nonneg by lia. split.
    - apply Z.div_pos; lia.
    - apply Z.div_lt_upper_bound; lia. }
  pose proof (SpectralFacts.GenerateInitialSpectrum_post gaussianDist o) as H.
  cbv zeta in H. fold cfg o' in H.
  destruct H as (_ & _ & _ & _ & _ & _ & _ & Hr & Hf).
  split; [apply (guard_iff_centre cfg Hs0 Hs1 m n)|]. split.
  - rewrite (Hf c c) by nia. f_equal. unfold expected_cell.
    destruct (Rlt_dec (length2 (wavevector cfg c c)) 0.000001) as [_|Hk];
      [reflexivity|].
    exfalso. apply Hk. by apply (guard_iff_centre cfg Hs0 Hs1).
  - rewrite Hr, (draws_in_rows_count cfg Hs0 Hs1 _ HN).
    rewrite Z2Nat.id by lia.
    destruct (Z.ltb_spec (N cfg ÷ 2) (N cfg)); [|fold c in H; lia].
    f_equal. nia.
Qed.

Lemma GenerateInitialSpectrum_single_zero_witness :
  let o := set_config new (config_with_N 4) in
  rng (GenerateInitialSpectrum (fun _ => 1) o) = 30%nat.
Proof.
  intros o.
  pose proof (GenerateInitialSpectrum_single_zero (fun _ => 1) o 0 0
                ltac:(simpl; lia) ltac:(simpl; lra) ltac:(simpl; lra)) as H.
  cbv zeta in H. exact (proj2 (proj2 H)).
Defined.

End SpectrumCountFacts.

(** ** The sampling queries of the spectral ocean *)

Module QueryFacts.
Import OceanFFT Vocabulary.

Lemma height_step_bound (wp : WaveParameters) (x z tm : R) (i : Z) (h : R) :
  (0 <= i)%Z ->
  Rabs (height_step wp x z tm i h) <= Rabs h + Rabs (A wp) / IZR (2 ^ i).
Proof.
  intros Hi. unfold height_step. rewrite Z.shiftl_1_l.
  assert (Hp : 0 < IZR (2 ^ i)) by (apply IZR_lt; by apply Z.pow_pos_nonneg).
  set (p := IZR (2 ^ i)) in *.
  set (s := sin _). set (c := cos _).
  eapply Rle_trans; [apply Rabs_triang|].
  assert (Rabs (A wp / p * s * c) <= Rabs (A wp) / p); [|lra].
  rewrite !Rabs_mult. unfold Rdiv. rewrite Rabs_mult, (Rabs_right (/ p)).
  2:{ apply Rle_ge. left. by apply Rinv_0_lt_compat. }
  assert (Hs : Rabs s <= 1) by (apply Rabs_le; pose proof (SIN_bound (x * (0.01 * p) + tm)); unfold s; lra).
  assert (Hc : Rabs c <= 1) by (apply Rabs_le; pose proof (COS_bound (z * (0.01 * p) + tm * 0.7)); unfold c; lra).
  pose proof (Rabs_pos s). pose proof (Rabs_pos c). pose proof (Rabs_pos (A wp)).
  assert (0 < / p) by (by apply Rinv_0_lt_compat).
  assert (0 <= Rabs (A wp) * / p) by (apply Rmult_le_pos; lra).
  assert (Rabs s * Rabs c <= 1) by nra.
  rewrite Rmult_assoc.
  rewrite <- (Rmult_1_r (Rabs (A wp) * / p)) at 2.
  apply Rmult_le_compat_l; lra.
Qed.

(** X15: [SampleHeight] never exceeds twice the absolute amplitude
    scale A, at every position and time, on every surface. *)
Theorem SampleHeight_bound (o : t) (x z currentTime : R) :
  Rabs (SampleHeight o x z currentTime) <= 2 * Rabs (A (waveParams o)).
Proof.
  pose proof (Rabs_pos (A (waveParams o))) as HA.
  unfold SampleHeight. destruct (negb (isInitialized o)).
  - rewrite Rabs_R0. lra.
  - set (tm := if Rlt_dec currentTime 0 then time o else currentTime).
    unfold for_range. change (Z.to_nat (8 - 0)) with 8%nat. cbn [for_loop].
    change (0 + 1)%Z with 1%Z. change (1 + 1)%Z with 2%Z. change (2 + 1)%Z with 3%Z.
    change (3 + 1)%Z with 4%Z. change (4 + 1)%Z with 5%Z. change (5 + 1)%Z with 6%Z.
    change (6 + 1)%Z with 7%Z.
    set (wp := waveParams o) in *.
    set (h0 := height_step wp x z tm 0 0).
    set (h1 := height_step wp x z tm 1 h0).
    set (h2 := height_step wp x z tm 2 h1).
    set (h3 := height_step wp x z tm 3 h2).
    set (h4 := height_step wp x z tm 4 h3).
    set (h5 := height_step wp x z tm 5 h4).
    set (h6 := height_step wp x z tm 6 h5).
    pose proof (height_step_bound wp x z tm 0 0 ltac:(lia)) as B0.
    pose proof (height_step_bound wp x z tm 1 h0 ltac:(lia)) as B1.
    pose proof (height_step_bound wp x z tm 2 h1 ltac:(lia)) as B2.
    pose proof (height_step_bound wp x z tm 3 h2 ltac:(lia)) as B3.
    pose proof (height_step_bound wp x z tm 4 h3 ltac:(lia)) as B4.
    pose proof (height_step_bound wp x z tm 5 h4 ltac:(lia)) as B5.
    pose proof (height_step_bound wp x z tm 6 h5 ltac:(lia)) as B6.
    pose proof (height_step_bound wp x z tm 7 h6 ltac:(lia)) as B7.
    fold h0 in B0, B1. fold h1 in B1, B2. fold h2 in B2, B3. fold h3 in B3, B4.
    fold h4 in B4, B5. fold h5 in B5, B6. fold h6 in B6, B7.
    rewrite Rabs_R0 in B0.
    change (IZR (2 ^ 0)) with 1 in B0. change (IZR (2 ^ 1)) with 2 in B1.
    change (IZR (2 ^ 2)) with 4 in B2. change (IZR (2 ^ 3)) with 8 in B3.
    change (IZR (2 ^ 4)) with 16 in B4. change (IZR (2 ^ 5)) with 32 in B5.
    change (IZR (2 ^ 6)) with 64 in B6. change (IZR (2 ^ 7)) with 128 in B7.
    lra.
Qed.

(** X16: [SampleDisplacement] moves a point by at most 0.1 times the
    absolute choppiness in each horizontal direction, and it never
    reads the clock of the surface: a negative time argument is used
    as it is, not replaced by the current time. *)
Theorem SampleDisplacement_bound (o : t) (x z currentTime clock : R) :
  let d := SampleDisplacement o x z currentTime in
  Rabs (x2 d) <= 0.1 * Rabs (lambda (waveParams o)) /\
  Rabs (y2 d) <= 0.1 * Rabs (lambda (waveParams o)) /\
  SampleDisplacement (set_time o clock) x z currentTime = d.
Proof.
  pose proof (Rabs_pos (lambda (waveParams o))) as HL.
  unfold SampleDisplacement. cbn [isInitialized config waveParams set_time].
  destruct (negb (isInitialized o) || negb (enableChoppiness (config o))).
  - cbn [x2 y2]. rewrite Rabs_R0. repeat split; lra.
  - cbn [x2 y2]. set (c := cos _). set (s := sin _).
    assert (Hc : Rabs c <= 1) by (apply Rabs_le; apply COS_bound).
    assert (Hs : Rabs s <= 1) by (apply Rabs_le; apply SIN_bound).
    rewrite !Rabs_mult, (Rabs_right 0.1) by lra.
    repeat split; nra.
Qed.

End QueryFacts.

(** ** Symmetries of the spectrum *)

Module SymmetryFacts.
Import OceanFFT Vocabulary.

Lemma length2_neg (k : vec2) : length2 (neg2 k) = length2 k.
Proof. unfold length2, dot2, neg2. cbn [x2 y2]. f_equal. ring. Qed.

Lemma PhillipsSpectrum_neg (wp : WaveParameters) (k : vec2) :
  PhillipsSpectrum wp (neg2 k) = PhillipsSpectrum wp k.
Proof.
  unfold PhillipsSpectrum. rewrite length2_neg.
  destruct (Rlt_dec (length2 k) 0.000001); [reflexivity|].
  set (w := normalize2 (windDirection wp)).
  assert (E : dot2 (div2 (neg2 k) (length2 k)) w = - dot2 (div2 k (length2 k)) w).
  { unfold dot2, div2, neg2. cbn [x2 y2]. unfold Rdiv. ring. }
  rewrite E. f_equal. f_equal. ring.
Qed.

(** X17: the Phillips spectrum and the dispersion relation take the
    same value at a wavevector and at its opposite. *)
Theorem PhillipsSpectrum_even (wp : WaveParameters) (k : vec2) :
  PhillipsSpectrum wp (neg2 k) = PhillipsSpectrum wp k /\
  DispersionRelation wp (neg2 k) = DispersionRelation wp k.
Proof.
  split; [apply PhillipsSpectrum_neg|].
  unfold DispersionRelation. by rewrite length2_neg.
Qed.

(** X18: for an even resolution N, the cells (n, m) and (N - n, N - m)
    carry opposite wavevectors, hence the same Phillips value. *)
Theorem GetWaveVector_mirror (wp : WaveParameters) (cfg : OceanConfig) (n m : Z) :
  Z.even (N cfg) = true ->
  GetWaveVector cfg (N cfg - n) (N cfg - m) = neg2 (GetWaveVector cfg n m) /\
  PhillipsSpectrum wp (GetWaveVector cfg (N cfg - n) (N cfg - m)) =
  PhillipsSpectrum wp (GetWaveVector cfg n m).
Proof.
  intros HN.
  assert (E : GetWaveVector cfg (N cfg - n) (N cfg - m) = neg2 (GetWaveVector cfg n m)).
  { apply Z.even_spec in HN as [h Hh].
    assert (Hq : (N cfg ÷ 2 = h)%Z).
    { rewrite Hh. rewrite Z.mul_comm. apply Z.quot_mul. lia. }
    unfold GetWaveVector, neg2. cbn [x2 y2]. rewrite Hq.
    replace (N cfg - n - h)%Z with (- (n - h))%Z by lia.
    replace (N cfg - m - h)%Z with (- (m - h))%Z by lia.
    rewrite !opp_IZR. f_equal; unfold Rdiv; ring. }
  split; [exact E|]. rewrite E. apply PhillipsSpectrum_neg.
Qed.

Lemma GetWaveVector_mirror_witness :
  GetWaveVector default_config (512 - 3) (512 - 5) = neg2 (GetWaveVector default_config 3 5).
Proof.
  exact (proj1 (GetWaveVector_mirror default_params default_config 3 5 eq_refl)).
Defined.

(** X19: the complex numbers of the spectrum: conjugation is an
    involution and distributes over the product, the product is
    commutative, the magnitude of a product is the product of the
    magnitudes, and a number times its conjugate is its squared
    magnitude. *)
Theorem Complex_algebra (a b : Complex) :
  conjugate (conjugate a) = a /\
  Complex_mul a b = Complex_mul b a /\
  conjugate (Complex_mul a b) = Complex_mul (conjugate a) (conjugate b) /\
  magnitude (Complex_mul a b) = magnitude a * magnitude b /\
  Complex_mul a (conjugate a) = mkComplex (magnitude a * magnitude a) 0.
Proof.
  destruct a as [ar ai], b as [br bi].
  unfold conjugate, Complex_mul, magnitude. cbn [real imag].
  assert (Ha : 0 <= ar * ar + ai * ai) by (pose proof (Rle_0_sqr ar); pose proof (Rle_0_sqr ai); unfold Rsqr in *; lra).
  assert (Hb : 0 <= br * br + bi * bi) by (pose proof (Rle_0_sqr br); pose proof (Rle_0_sqr bi); unfold Rsqr in *; lra).
  split; [f_equal; ring|]. split; [f_equal; ring|]. split; [f_equal; ring|]. split.
  - rewrite <- sqrt_mult by lra. f_equal. ring.
  - rewrite sqrt_sqrt by lra. f_equal; ring.
Qed.

End SymmetryFacts.

(** ** Bit reversal *)

Module BitFacts.
Import OceanFFTBits.

Local Open Scope Z_scope.

(** A number whose bits above [n] are clear is below [2 ^ n]. *)
Lemma bits_bound (x n : Z) (f : Z -> bool) :
  0 <= n ->
  (forall j, 0 <= j -> Z.testbit x j = (j <? n) && f j) ->
  0 <= x < 2 ^ n.
Proof.
  intros Hn Hx.
  assert (E : x = x mod 2 ^ n).
  { apply Z.bits_inj'. intros j Hj.
    rewrite Z.testbit_mod_pow2, Hx by lia.
    destruct (j <? n); reflexivity. }
  rewrite E. apply Z.mod_pos_bound. by apply Z.pow_pos_nonneg.
Qed.

Lemma ReverseBits_step_invariant (v0 i : Z) (st : Z * Z) :
  0 <= i < 32 ->
  reversed_so_far v0 i st ->
  reversed_so_far v0 (i + 1) (ReverseBits_step st).
Proof.
  intros Hi [Hv Hb]. destruct st as [result value]. cbn [fst snd] in *.
  destruct (bits_bound result i _ ltac:(lia) Hb) as [H0 H1].
  unfold ReverseBits_step, reversed_so_far. cbn [fst snd].
  assert (Hsh : Z.shiftl result 1 mod 2 ^ 32 = Z.shiftl result 1).
  { apply Z.mod_small. rewrite Z.shiftl_mul_pow2 by lia.
    assert (2 ^ (i + 1) <= 2 ^ 32) by (apply Z.pow_le_mono_r; lia).
    rewrite Z.pow_add_r in H by lia. lia. }
  rewrite Hsh. split.
  - subst value. rewrite Z.shiftr_shiftr by lia. reflexivity.
  - intros j Hj.
    rewrite Z.lor_spec, Z.shiftl_spec by lia.
    change 1 with (Z.ones 1) at 2. rewrite Z.land_ones by lia.
    change (2 ^ 1) with (2 ^ 1). rewrite Z.testbit_mod_pow2 by lia.
    subst value. rewrite Z.shiftr_spec by lia.
    destruct (Z.eq_dec j 0) as [->|Hne].
    + rewrite Z.testbit_neg_r by lia. cbn [orb].
      replace (0 <? 1) with true by reflexivity.
      replace (0 <? i + 1) with true by (symmetry; apply Z.ltb_lt; lia).
      cbn [andb]. f_equal. lia.
    + rewrite Hb by lia.
      replace (j <? 1) with false by (symmetry; apply Z.ltb_ge; lia).
      cbn [andb]. rewrite orb_false_r.
      replace (j - 1 <? i) with (j <? i + 1)
        by (destruct (Z.ltb_spec j (i + 1)), (Z.ltb_spec (j - 1) i); lia).
      f_equal. f_equal. lia.
Qed.

Lemma ReverseBits_loop_invariant (v0 : Z) (count : nat) (i idx : Z) (st : Z * Z) :
  0 <= i -> i + Z.of_nat count <= 32 ->
  reversed_so_far v0 i st ->
  reversed_so_far v0 (i + Z.of_nat count)
    (for_loop count idx (fun _ st => ReverseBits_step st) st).
Proof.
  revert i idx st. induction count as [|c IH]; intros i idx st Hi Hc Hinv.
  - cbn [for_loop]. by rewrite Z.add_0_r.
  - cbn [for_loop].
    replace (i + Z.of_nat (S c)) with ((i + 1) + Z.of_nat c) by lia.
    apply IH; [lia | lia |]. apply ReverseBits_step_invariant; [lia | exact Hinv].
Qed.

Lemma ReverseBits_bits (value numBits j : Z) :
  0 <= numBits <= 32 -> 0 <= j ->
  Z.testbit (ReverseBits value numBits) j =
  (j <? numBits) && Z.testbit value (numBits - 1 - j).
Proof.
  intros Hn Hj. unfold ReverseBits, for_range.
  pose proof (ReverseBits_loop_invariant value (Z.to_nat (numBits - 0)) 0 0 (0, value)
                ltac:(lia) ltac:(lia)) as H.
  destruct H as [_ H].
  - split; [reflexivity|]. intros k Hk. cbn [fst].
    rewrite Z.testbit_0_l. symmetry.
    replace (k <? 0) with false by (symmetry; apply Z.ltb_ge; lia). reflexivity.
  - rewrite H by lia. f_equal; [f_equal|f_equal]; lia.
Qed.

(** X20: for 0 <= numBits <= 32, [ReverseBits] returns a value below
    2^numBits whose bit j is bit numBits-1-j of the input, and
    reversing twice gives back the low numBits bits of the input (the
    input itself when it is below 2^numBits). *)
Theorem ReverseBits_involution (value numBits : Z) :
  0 <= numBits <= 32 ->
  0 <= ReverseBits value numBits < 2 ^ numBits /\
  (forall j, 0 <= j ->
     Z.testbit (ReverseBits value numBits) j =
     (j <? numBits) && Z.testbit value (numBits - 1 - j)) /\
  ReverseBits (ReverseBits value numBits) numBits = value mod 2 ^ numBits /\
  (0 <= value < 2 ^ numBits ->
   ReverseBits (ReverseBits value numBits) numBits = value).
Proof.
  intros Hn.
  assert (Hinv : ReverseBits (ReverseBits value numBits) numBits = value mod 2 ^ numBits).
  { apply Z.bits_inj'. intros j Hj.
    rewrite ReverseBits_bits, Z.testbit_mod_pow2 by lia.
    destruct (Z.ltb_spec j numBits) as [Hlt|Hge]; [|reflexivity].
    rewrite ReverseBits_bits by lia.
    replace (numBits - 1 - j <? numBits) with true
      by (symmetry; apply Z.ltb_lt; lia).
    cbn [andb]. f_equal. lia. }
  split; [|split; [|split]].
  - apply (bits_bound _ numBits (fun j => Z.testbit value (numBits - 1 - j)));
      [lia|]. intros j Hj. by apply ReverseBits_bits.
  - intros j Hj. by apply ReverseBits_bits.
  - exact Hinv.
  - intros Hv. rewrite Hinv. by apply Z.mod_small.
Qed.

Lemma ReverseBits_involution_witness :
  ReverseBits 6 4 = 6 /\ ReverseBits (ReverseBits 13 4) 4 = 13.
Proof.
  split; [reflexivity|].
  exact (proj2 (proj2 (proj2 (ReverseBits_involution 13 4 ltac:(lia)))) ltac:(lia)).
Defined.

End BitFacts.

(** ** Initialization and presets of the Gerstner ocean *)

Module HostFacts.
Import Ocean OceanHost.

(** X21: [Ocean::Initialize] succeeds exactly when the shader files
    load; it does not validate the configuration (a resolution of zero
    or below is accepted), it stores the configuration either way and
    never resets the clock; when it fails the surface is left
    uninitialized with the mesh it had. *)
Theorem Initialize_outcome (shaders_load : bool) (o : t) (cfg : OceanConfig) :
  let result := Initialize shaders_load o cfg in
  fst result = shaders_load /\
  isInitialized (snd result) = shaders_load /\
  config (snd result) = cfg /\
  time (snd result) = time o /\
  (shaders_load = false ->
   vertices (snd result) = vertices o /\ indices (snd result) = indices o) /\
  (shaders_load = true ->
   length (vertices (snd result)) =
     (Z.to_nat (resolution cfg + 1) * Z.to_nat (resolution cfg + 1))%nat).
Proof.
  unfold Initialize.
  assert (E : (if isInitialized o then Cleanup o else o) = set_isInitialized o false).
  { destruct o as [vs ns ts ind c tm [|]]; reflexivity. }
  rewrite E. destruct shaders_load; cbn [negb fst snd].
  - rewrite MeshFacts.GenerateMesh_closed. cbv zeta. cbn.
    repeat split; try reflexivity; try discriminate.
    intros _. unfold range.
    rewrite (MeshFacts.length_flat_map_rows _ (Z.to_nat (resolution cfg + 1 - 0)))
      by (intros; by rewrite length_map, length_iota).
    f_equal; f_equal; lia.
  - cbn. repeat split; try reflexivity; discriminate.
Qed.

Lemma Initialize_outcome_witness :
  let result := Initialize true new GridLayout.example_config in
  fst result = true /\ length (vertices (snd result)) = 25%nat.
Proof.
  intros result.
  pose proof (Initialize_outcome true new GridLayout.example_config) as H.
  cbv zeta in H. destruct H as (H1 & _ & _ & _ & _ & H2).
  split; [exact H1 | exact (H2 eq_refl)].
Defined.



End HostFacts.

(** ** More on the Phillips spectrum and on reconfiguration *)

Module ReconfigureFacts.
Import Vocabulary.

(** X23: for a non-negative amplitude scale A the Phillips spectrum is
    never negative (the square root taken of it in the initial
    spectrum is defined), and it vanishes for every wavevector
    perpendicular to the wind direction. *)
Theorem PhillipsSpectrum_nonneg (wp : OceanFFT.WaveParameters) (k : vec2) :
  (0 <= OceanFFT.A wp -> 0 <= OceanFFT.PhillipsSpectrum wp k) /\
  (dot2 k (OceanFFT.windDirection wp) = 0 -> OceanFFT.PhillipsSpectrum wp k = 0).
Proof.
  unfold OceanFFT.PhillipsSpectrum.
  destruct (Rlt_dec (length2 k) 0.000001) as [H|H].
  - split; intros _; [lra | reflexivity].
  - assert (Hk : 0 < length2 k) by lra.
    set (n := length2 k) in *.
    set (w := OceanFFT.windDirection wp).
    split.
    + intros HA.
      set (d := dot2 (div2 k n) (normalize2 w)).
      assert (Hd : 0 <= d * d) by apply Rle_0_sqr.
      assert (Hn4 : 0 < n * n * (n * n)) by (repeat apply Rmult_lt_0_compat; exact Hk).
      apply Rmult_le_pos; [|left; apply exp_pos].
      apply Rmult_le_pos; [|exact Hd].
      apply Rmult_le_pos; [|left; by apply Rinv_0_lt_compat].
      apply Rmult_le_pos; [exact HA | left; apply exp_pos].
    + intros Hperp.
      assert (E : dot2 (div2 k n) (normalize2 w) = dot2 k w * (/ n * (1 / sqrt (dot2 w w)))).
      { unfold div2, normalize2, scale2. set (sw := 1 / sqrt (dot2 w w)).
        unfold dot2. cbn [x2 y2]. unfold Rdiv. ring. }
      rewrite E. fold w in Hperp. rewrite Hperp. ring.
Qed.

Lemma PhillipsSpectrum_nonneg_witness :
  0 <= OceanFFT.PhillipsSpectrum OceanFFT.default_params (Vec2 3 4) /\
  OceanFFT.PhillipsSpectrum OceanFFT.default_params (Vec2 1 (-1)) = 0.
Proof.
  split.
  - apply (proj1 (PhillipsSpectrum_nonneg OceanFFT.default_params (Vec2 3 4))).
    simpl. lra.
  - apply (proj2 (PhillipsSpectrum_nonneg OceanFFT.default_params (Vec2 1 (-1)))).
    unfold dot2. simpl. lra.
Defined.

(** X24: on an initialized surface [Ocean::SetConfig] stores the
    configuration and replaces the four host-side streams (vertices,
    normals, texture coordinates, indices) by the mesh of the new
    configuration, whatever they held, keeping the clock and the flag;
    on an uninitialized surface it stores the configuration and leaves
    the streams as they were. *)
Theorem SetConfig_rebuilds_streams (o : Ocean.t) (cfg : Ocean.OceanConfig) :
  let o' := Ocean.SetConfig o cfg in
  let fresh := Ocean.GenerateMesh (Conformance.ocean_with cfg) in
  Ocean.config o' = cfg /\
  Ocean.time o' = Ocean.time o /\
  Ocean.isInitialized o' = Ocean.isInitialized o /\
  (Ocean.isInitialized o = true ->
   Ocean.vertices o' = Ocean.vertices fresh /\
   Ocean.normals o' = Ocean.normals fresh /\
   Ocean.texCoords o' = Ocean.texCoords fresh /\
   Ocean.indices o' = Ocean.indices fresh /\
   length (Ocean.vertices o') =
     (Z.to_nat (Ocean.resolution cfg + 1) * Z.to_nat (Ocean.resolution cfg + 1))%nat) /\
  (Ocean.isInitialized o = false ->
   Ocean.vertices o' = Ocean.vertices o /\
   Ocean.normals o' = Ocean.normals o /\
   Ocean.texCoords o' = Ocean.texCoords o /\
   Ocean.indices o' = Ocean.indices o).
Proof.
  unfold Ocean.SetConfig, Ocean.UpdateMeshData. cbn [Ocean.isInitialized].
  destruct (Ocean.isInitialized o) eqn:Hi.
  - rewrite !MeshFacts.GenerateMesh_closed. cbv zeta.
    cbn [Ocean.config Ocean.time Ocean.isInitialized Ocean.vertices Ocean.normals
         Ocean.texCoords Ocean.indices Conformance.ocean_with].
    split; [reflexivity|]. split; [reflexivity|]. split; [reflexivity|].
    split; [|discriminate].
    intros _. do 4 (split; [reflexivity|]). unfold range.
    rewrite (MeshFacts.length_flat_map_rows _ (Z.to_nat (Ocean.resolution cfg + 1 - 0)))
      by (intros; by rewrite length_map, length_iota).
    f_equal; f_equal; lia.
  - cbn [Ocean.config Ocean.time Ocean.isInitialized Ocean.vertices Ocean.normals
         Ocean.texCoords Ocean.indices].
    split; [reflexivity|]. split; [reflexivity|]. split; [reflexivity|].
    split; [discriminate|]. intros _. auto.
Qed.

Lemma SetConfig_rebuilds_streams_witness :
  Ocean.isInitialized GridLayout.stale_ocean = true /\
  length (Ocean.vertices (Ocean.SetConfig GridLayout.stale_ocean GridLayout.example_config))
  = 25%nat.
Proof.
  split; [reflexivity|].
  pose proof (SetConfig_rebuilds_streams GridLayout.stale_ocean GridLayout.example_config)
    as H.
  cbv zeta in H. destruct H as (_ & _ & _ & H & _).
  destruct (H eq_refl) as (_ & _ & _ & _ & H5). exact H5.
Defined.

End ReconfigureFacts.
